(** * Strategy core of _Cassandra: backtester, metrics, walk-forward model
      and portfolio construction

    A shallow embedding of [src/backtester.py], [src/modeling.py] and
    [src/portfolio_construction.py], with the labels of
    [src/feature_engineering.py] and the hand-over of the portfolio to the
    backtester in [src/run_pipeline.py].

    Conventions used throughout.
    - A pandas float cell is an exact number, [Q] where the code only adds,
      multiplies, divides and compares, [R] where it takes roots and real
      powers (the metrics).  Rounding is not modelled.
    - A cell that may be NaN is an [option]: [None] is NaN.
    - A date index is a list of day numbers ([Z]); a DataFrame indexed by
      dates that is looked up by label is a [gmap Z _]; a DataFrame that is
      walked in order is the list of its rows.
    - Columns are positions in [asset_list] / [asset_columns].

    Part I holds the program, Part II what is proved about it. *)

From Stdlib Require Import ZArith QArith Qabs Reals Psatz Lia.
From Stdlib Require Import String Sorted.
From stdpp Require Import base option list gmap.

(** * Part I: the program *)

(** ** Sums of rationals (pandas [.sum()]) *)

Module QSum.
Local Open Scope Q_scope.

Definition sumQ (l : list Q) : Q := foldr Qplus 0 l.
Arguments sumQ : simpl never.

End QSum.

(** ** The simulation engine: [Backtester.run_backtest] *)

Module Backtest.
Import QSum.
Local Open Scope Q_scope.

(** [Backtester.__init__]: the price table restricted to [asset_list] (rows
    in date order, each with its date), the target weights restricted to
    [asset_list] and keyed by date, the number of columns of [asset_list],
    and the two rates, already decimal. *)
Record Backtester := {
  prices : list (Z * list Q);
  target_weights : gmap Z (list (option Q));
  asset_count : nat;
  transaction_cost : Q;
  slippage : Q
}.

(** [float(bps) / 10000.0]; [slippage_bps=None] reads [config.SLIPPAGE_BPS],
    which [config.py] does not define, so the default is 0. *)
Definition bps_to_decimal (bps : Q) : Q := bps / 10000.

Definition init (prices_df : list (Z * list Q))
    (target_weights_df : gmap Z (list (option Q))) (n_assets : nat)
    (transaction_cost_bps : Q) (slippage_bps : option Q) : Backtester :=
  {| prices := prices_df;
     target_weights := target_weights_df;
     asset_count := n_assets;
     transaction_cost := bps_to_decimal transaction_cost_bps;
     slippage := bps_to_decimal (default 0 slippage_bps) |}.

(** [prices.pct_change().fillna(0)]: the first row has no predecessor and
    is filled with 0.  Prices are traded prices, hence nonzero; at a zero
    previous price the float would be infinite, which [Q] has not. *)
Definition pct_cell (prev cur : Q) : Q := cur / prev - 1.

Fixpoint pct_change_from (prev : list Q) (rows : list (list Q)) : list (list Q) :=
  match rows with
  | [] => []
  | r :: rest => zip_with pct_cell prev r :: pct_change_from r rest
  end.

Definition pct_change_fillna0 (rows : list (list Q)) : list (list Q) :=
  match rows with
  | [] => []
  | r :: rest => map (fun _ => 0) r :: pct_change_from r rest
  end.

Definition index (bt : Backtester) : list Z := map fst (prices bt).

Definition returns (bt : Backtester) : list (list Q) :=
  pct_change_fillna0 (map snd (prices bt)).

(** [target_weights[asset_list].reindex(returns.index)]: a date the weight
    table does not have becomes a row of NaN. *)
Definition reindex (n : nat) (tw : gmap Z (list (option Q))) (idx : list Z)
    : list (list (option Q)) :=
  map (fun d => default (replicate n None) (tw !! d)) idx.

Definition isna (c : option Q) : bool :=
  match c with None => true | Some _ => false end.

(** [weights.isna().all(axis=1)] *)
Definition initial_nan_mask (w : list (list (option Q))) : list bool :=
  map (forallb isna) w.

(** [weights.loc[initial_nan_mask] = 1.0 / len(asset_list)], run only when
    the mask has a true entry; with an empty [asset_list] the division
    raises [ZeroDivisionError] ([None]). *)
Definition fill_equal_weight (n : nat) (w : list (list (option Q)))
    : option (list (list (option Q))) :=
  if existsb (fun b => b) (initial_nan_mask w) then
    match n with
    | O => None
    | S _ =>
        let equal_weight := 1 / inject_Z (Z.of_nat n) in
        Some (map (fun r => if forallb isna r
                            then replicate n (Some equal_weight) else r) w)
    end
  else Some w.

(** [fillna(method='ffill')], column by column. *)
Definition ffill_cell (prev cur : option Q) : option Q :=
  match cur with Some v => Some v | None => prev end.

Fixpoint ffill_from (prev : list (option Q)) (rows : list (list (option Q)))
    : list (list (option Q)) :=
  match rows with
  | [] => []
  | r :: rest =>
      let r' := zip_with ffill_cell prev r in r' :: ffill_from r' rest
  end.

Definition ffill (rows : list (list (option Q))) : list (list (option Q)) :=
  match rows with
  | [] => []
  | r :: rest => r :: ffill_from r rest
  end.

Definition fillna0 (rows : list (list (option Q))) : list (list Q) :=
  map (map (default 0)) rows.

(** Lines 48-59: the weight table the loop reads. *)
Definition weights (bt : Backtester) : option (list (list Q)) :=
  w ← fill_equal_weight (asset_count bt)
        (reindex (asset_count bt) (target_weights bt) (index bt));
  Some (fillna0 (ffill w)).

(** [(target_w - prev_weights).abs().sum() / 2.0] *)
Definition half_l1 (target_w prev_weights : list Q) : Q :=
  sumQ (zip_with (fun a b => Qabs (a - b)) target_w prev_weights) / 2.

(** [(prev_weights * returns.loc[t]).sum()] *)
Definition dot (w r : list Q) : Q := sumQ (zip_with Qmult w r).

(** What one date records: [portfolio_returns.loc[t]] and [turnover.loc[t]]. *)
Record day := { net_return : Q; turnover : Q }.

(** The loop of lines 67-84, [prev_weights] threaded through. *)
Fixpoint simulate (tc sl : Q) (prev_weights : list Q)
    (ws rs : list (list Q)) : list day :=
  match ws, rs with
  | target_w :: ws', r :: rs' =>
      let trades := half_l1 target_w prev_weights in
      let cost := trades * tc in
      let slippage_cost := trades * sl in
      let gross_return := dot prev_weights r in
      {| net_return := gross_return - cost - slippage_cost;
         turnover := trades |} :: simulate tc sl target_w ws' rs'
  | _, _ => []
  end.

(** [run_backtest]: [None] when it raises.  The closing [fillna(0)] of both
    series changes nothing here, every recorded value being a number. *)
Definition run_backtest (bt : Backtester) : option (list day) :=
  ws ← weights bt;
  Some (simulate (transaction_cost bt) (slippage bt)
          (replicate (asset_count bt) 0) ws (returns bt)).

(** The position held going into date [t]: all zero on the first date, the
    previous date's target afterwards. *)
Definition held_before (n : nat) (ws : list (list Q)) (t : nat) : list Q :=
  match t with
  | O => replicate n 0
  | S k => default [] (ws !! k)
  end.

Definition target_at (ws : list (list Q)) (t : nat) : list Q :=
  default [] (ws !! t).

Definition returns_at (bt : Backtester) (t : nat) : list Q :=
  default [] (returns bt !! t).

(** Gross return of date [t], from the tables alone. *)
Definition gross_return_at (bt : Backtester) (ws : list (list Q)) (t : nat) : Q :=
  dot (held_before (asset_count bt) ws t) (returns_at bt t).

Definition turnover_at (bt : Backtester) (ws : list (list Q)) (t : nat) : Q :=
  half_l1 (target_at ws t) (held_before (asset_count bt) ws t).

(** *** A three-day run, by hand

    Two assets; the target moves from the first asset to the second on the
    second day.  5 bps of cost, no slippage configured. *)
Definition three_day_prices : list (Z * list Q) :=
  [ (0%Z, [100; 100]); (1%Z, [110; 100]); (2%Z, [110; 90]) ].

Definition three_day_targets : gmap Z (list (option Q)) :=
  <[0%Z := [Some 1; Some 0]]>
    (<[1%Z := [Some 0; Some 1]]> (<[2%Z := [Some 0; Some 1]]> ∅)).

Definition three_day_bt : Backtester :=
  init three_day_prices three_day_targets 2 5 None.

(** The same prices with the middle date absent from the target table. *)
Definition gap_targets : gmap Z (list (option Q)) :=
  <[0%Z := [Some 1; Some 0]]> (<[2%Z := [Some 0; Some 1]]> ∅).

Definition gap_bt : Backtester := init three_day_prices gap_targets 2 5 None.

(** What "forward-fill every gap that is not leading" gives on a reindexed
    table: used only to say what [gap_bt] was meant to produce. *)
Definition ffill_only (bt : Backtester) : list (list Q) :=
  fillna0 (ffill (reindex (asset_count bt) (target_weights bt) (index bt))).

(** The three-day run again with both rates at 0. *)
Definition three_day_free : Backtester :=
  init three_day_prices three_day_targets 2 0 None.

Definition three_day_ws : list (list Q) := [[1; 0]; [0; 1]; [0; 1]].

Definition three_day_out : list day :=
  Eval vm_compute in default [] (run_backtest three_day_bt).

Definition three_day_free_out : list day :=
  Eval vm_compute in default [] (run_backtest three_day_free).

Definition nth_day (out : list day) (t : nat) : day :=
  default {| net_return := 0; turnover := 0 |} (out !! t).

(** The position held going into date [t] of a loop started at [prev]. *)
Definition held_in (prev : list Q) (ws : list (list Q)) (t : nat) : list Q :=
  match t with
  | O => prev
  | S k => default [] (ws !! k)
  end.

(** *** Turnover and cost aggregates

    The part of [calculate_performance_metrics] that only sums and scales
    (lines 163-183): [turnover.sum()], [(turnover * rate).sum()] and
    [turnover.mean() * 252]. *)
Definition total_turnover (out : list day) : Q := sumQ (map turnover out).

Definition total_transaction_costs (bt : Backtester) (out : list day) : Q :=
  sumQ (map (fun d => turnover d * transaction_cost bt) out).

Definition estimated_total_slippage (bt : Backtester) (out : list day) : Q :=
  sumQ (map (fun d => turnover d * slippage bt) out).

(** [Series.mean()]: NaN on an empty series. *)
Definition series_mean (l : list Q) : option Q :=
  match l with
  | [] => None
  | _ => Some (sumQ l / inject_Z (Z.of_nat (length l)))
  end.

Definition avg_annual_turnover (out : list day) : option Q :=
  m ← series_mean (map turnover out); Some (m * 252).

Definition estimated_annual_slippage (bt : Backtester) (out : list day)
    : option Q :=
  m ← series_mean (map turnover out); Some (m * 252 * slippage bt).

(** The gross returns of the first [n] dates, from the tables alone. *)
Definition gross_returns (bt : Backtester) (ws : list (list Q)) (n : nat)
    : list Q :=
  map (gross_return_at bt ws) (seq 0 n).

(** The target table is a frame over [asset_list]: every row has one cell
    per asset. *)
Definition table_well_formed (bt : Backtester) : Prop :=
  map_Forall (fun _ r => length r = asset_count bt) (target_weights bt).

(** A long-only row that invests at most the whole capital. *)
Definition long_only (row : list Q) : Prop :=
  Forall (fun w => 0 <= w) row /\ sumQ row <= 1.

(** The three-day run with a negative cost, which [__init__] accepts. *)
Definition rebate_bt : Backtester :=
  init three_day_prices three_day_targets 2 (-5) None.

Definition rebate_out : list day :=
  Eval vm_compute in default [] (run_backtest rebate_bt).

(** The three-day run with a negative slippage. *)
Definition negative_slippage_bt : Backtester :=
  init three_day_prices three_day_targets 2 5 (Some (-2)).

Definition negative_slippage_out : list day :=
  Eval vm_compute in default [] (run_backtest negative_slippage_bt).

(** A backtester without any asset, over two dates. *)
Definition no_asset_bt : Backtester :=
  init [ (0%Z, []); (1%Z, []) ] ∅ 0 5 None.

End Backtest.

(** ** The metrics engine: [Backtester.calculate_performance_metrics]

    Lines 96-128: equity curve, CAGR, annualized volatility, Sharpe ratio
    and maximum drawdown; then the Calmar and Sortino ratios, the hit rate,
    and beta and the information ratio against a benchmark.  Roots and real
    powers are those of [R]. *)

Module Metrics.
Local Open Scope R_scope.

(** A float that may be NaN or minus infinity (a drawdown cell whose running
    maximum is 0). *)
Inductive fval := Finite (r : R) | NegInf | NaN.

Definition sumR (l : list R) : R := foldr Rplus 0 l.

(** [Series.mean()]: NaN on an empty series. *)
Definition mean (l : list R) : option R :=
  match l with
  | [] => None
  | _ => Some (sumR l / INR (length l))
  end.

(** [Series.std(ddof=1)]: NaN with fewer than two observations. *)
Definition std (l : list R) : option R :=
  match l with
  | [] | [_] => None
  | _ =>
      let m := sumR l / INR (length l) in
      Some (sqrt (sumR (map (fun x => (x - m) * (x - m)) l)
                  / (INR (length l) - 1)))
  end.

(** [(1 + results).cumprod()] *)
Fixpoint cumprod_from (acc : R) (l : list R) : list R :=
  match l with
  | [] => []
  | x :: l' => let a := acc * x in a :: cumprod_from a l'
  end.

Definition equity_curve (rets : list R) : list R :=
  cumprod_from 1 (map (fun r => 1 + r) rets).

(** [equity_curve.cummax()] *)
Fixpoint cummax_from (acc : R) (l : list R) : list R :=
  match l with
  | [] => []
  | x :: l' => let a := Rmax acc x in a :: cummax_from a l'
  end.

Definition cummax (l : list R) : list R :=
  match l with
  | [] => []
  | x :: l' => x :: cummax_from x l'
  end.

(** [base ** exponent] on floats, for a positive exponent: a negative base
    with a fractional exponent is NaN (and [365.25 / days] is never whole). *)
Definition fpow (base exponent : R) : option R :=
  if Rlt_dec 0 base then Some (Rpower base exponent)
  else if Req_dec_T base 0 then Some 0
  else None.

(** One cell of [equity_curve / rolling_max - 1]. *)
Definition drawdown_cell (e m : R) : fval :=
  if Req_dec_T m 0 then (if Req_dec_T e 0 then NaN else NegInf)
  else Finite (e / m - 1).

(** [Series.min()], which skips NaN. *)
Definition fmin (a b : fval) : fval :=
  match a, b with
  | NaN, x | x, NaN => x
  | NegInf, _ | _, NegInf => NegInf
  | Finite x, Finite y => Finite (Rmin x y)
  end.

Record metrics := {
  total_return : R;
  cagr : option R;
  volatility : option R;
  sharpe_ratio : option R;
  max_drawdown : fval
}.

(** [n_years]: whole days between the first and the last date over 365.25. *)
Definition n_years (first_date last_date : Z) : R :=
  IZR (last_date - first_date) / 365.25.

Definition cagr_of (equity_last : R) (years : R) : option R :=
  if Rlt_dec 0 years
  then p ← fpow equity_last (1 / years); Some (p - 1)
  else None.

(** [volatility != 0] holds for a NaN volatility, and the quotient is then
    NaN all the same. *)
Definition sharpe_of (rets : list R) : option R :=
  s ← std rets;
  m ← mean rets;
  if Req_dec_T (s * sqrt 252) 0 then None
  else Some (m * 252 / (s * sqrt 252)).

Definition max_drawdown_of (equity : list R) : fval :=
  foldr fmin NaN (zip_with drawdown_cell equity (cummax equity)).

(** [results]: the net-return series with its dates.  [None] is the empty
    frame returned when there are no results. *)
Definition metrics_of (d0 : Z) (results : list (Z * R)) : metrics :=
  let rets := map snd results in
  let equity := equity_curve rets in
  let equity_last := List.last equity 1 in
  let d_last := List.last (map fst results) d0 in
  {| total_return := equity_last - 1;
     cagr := cagr_of equity_last (n_years d0 d_last);
     volatility := s ← std rets; Some (s * sqrt 252);
     sharpe_ratio := sharpe_of rets;
     max_drawdown := max_drawdown_of equity |}.

Definition calculate_performance_metrics (results : list (Z * R))
    : option metrics :=
  match results with
  | [] => None
  | (d0, _) :: _ => Some (metrics_of d0 results)
  end.

(** Whole days from the first to the last date of the series. *)
Definition elapsed_days (results : list (Z * R)) : Z :=
  match results with
  | [] => 0
  | (d0, _) :: _ => List.last (map fst results) d0 - d0
  end.

(** Two days of zero return, one day apart. *)
Definition flat_two_days : list (Z * R) := [ (0%Z, 0); (1%Z, 0) ].

(** [cagr / abs(max_drawdown) if max_drawdown != 0 else np.nan]: a NaN
    drawdown passes the test and gives NaN; an infinite one gives 0. *)
Definition calmar_of (c : option R) (mdd : fval) : option R :=
  match mdd with
  | NaN => None
  | NegInf => _ ← c; Some 0
  | Finite x => if Req_dec_T x 0 then None else c' ← c; Some (c' / Rabs x)
  end.

(** [self.results[self.results < target]] with [target = 0.0] *)
Definition negative_returns (rets : list R) : list R :=
  List.filter (fun r => if Rlt_dec r 0 then true else false) rets.

Definition downside_deviation (rets : list R) : option R :=
  m ← mean (map (fun r => r * r) (negative_returns rets));
  Some (sqrt (m * 252)).

(** [downside_deviation and downside_deviation != 0] lets a NaN through, and
    the quotient is then NaN. *)
Definition sortino_of (rets : list R) : option R :=
  d ← downside_deviation rets;
  m ← mean rets;
  if Req_dec_T d 0 then None else Some ((m * 252 - 0) / d).

(** [(self.results > 0).mean()] *)
Definition hit_rate (rets : list R) : option R :=
  mean (map (fun r => if Rlt_dec 0 r then 1 else 0) rets).

(** [np.cov(x, y)[0, 1]]: the sample covariance, divided by [n - 1]. *)
Definition cov (xs ys : list R) : option R :=
  match xs with
  | [] | [_] => None
  | _ =>
      let mx := sumR xs / INR (length xs) in
      let my := sumR ys / INR (length ys) in
      Some (sumR (zip_with (fun x y => (x - mx) * (y - my)) xs ys)
            / (INR (length xs) - 1))
  end.

(** [np.var(y)]: the population variance, divided by [n]. *)
Definition var (ys : list R) : option R :=
  match ys with
  | [] => None
  | _ =>
      let m := sumR ys / INR (length ys) in
      Some (sumR (map (fun y => (y - m) * (y - m)) ys) / INR (length ys))
  end.

(** [beta = cov / var_bench if var_bench != 0 else np.nan] *)
Definition beta_of (rets bench : list R) : option R :=
  v ← var bench;
  if Req_dec_T v 0 then None else c ← cov rets bench; Some (c / v).

(** The information ratio of the results against the benchmark returns. *)
Definition information_ratio (rets bench : list R) : option R :=
  let excess := zip_with Rminus rets bench in
  s ← std excess;
  if Req_dec_T s 0 then None
  else m ← mean excess; Some (m * 252 / (s * sqrt 252)).

(** A day that doubles the capital followed by a day that halves it. *)
Definition gain_then_loss : list (Z * R) :=
  [ (0%Z, 1); (400%Z, - (1 / 2)) ].

(** A flat day followed by a day that doubles the capital. *)
Definition flat_then_gain : list R := [0; 1].

End Metrics.

(** ** The prediction engine: [WalkForwardModel.generate_predictions]

    One asset at a time.  The classifier is what scikit-learn provides: a
    deterministic [fit] (the seed is fixed by [random_state]) and a
    [predict_proba] that may raise. *)

Module WalkForward.

(** The estimator interface: [RandomForestClassifier(...).fit(X_train,
    y_train)] and [model.predict_proba(current_row)[0][1]], [None] when it
    raises. *)
Class Classifier (V Label Model Prob : Type) := {
  fit : list (list V * Label) -> Model;
  predict_proba : Model -> list V -> option Prob
}.

(** The fields [WalkForwardModel.__init__] sets. *)
Class WalkForwardModel := {
  train_window : nat;
  retrain_every : nat;
  min_train_window : nat
}.

(** [config.MOMENTUM_LOOKBACK], [MOMENTUM_FALLBACK_PROB],
    [MOMENTUM_FALLBACK_PROB_LOW] and the neutral 0.5. *)
Class MomentumConfig (Prob : Type) := {
  lookback : nat;
  high_prob : Prob;
  low_prob : Prob;
  neutral_prob : Prob
}.

Section Walk.
Context {V Label Model Prob : Type} `{EqDecision Label}.
Context {clf : Classifier V Label Model Prob} {wfm : WalkForwardModel}
        {cfg : MomentumConfig Prob}.

(** One date of [full_dataset] as one asset sees it: the candidate feature
    columns ([macro_candidates] and the columns prefixed by the asset) and
    the asset's target column. *)
Record raw_row := { r_feats : list (option V); r_target : option Label }.

(** One row of [clean_data]: no cell is missing.  [c_date] is the position
    of the row's date in [full_dataset.index]. *)
Record clean_row := { c_date : nat; c_feats : list V; c_label : Label }.

Definition present {A} (c : option (option A)) : bool :=
  match c with Some (Some _) => true | _ => false end.

(** [features.dropna(axis=1, how='all')]: a column stays when some date has
    a value in it. *)
Definition kept_columns (rows : list raw_row) : list bool :=
  map (fun j => existsb (fun r => present (r_feats r !! j)) rows)
      (seq 0 (length (default [] (r_feats <$> head rows)))).

Fixpoint select {A} (mask : list bool) (l : list A) : list A :=
  match mask, l with
  | b :: mask', x :: l' => if b then x :: select mask' l' else select mask' l'
  | _, _ => []
  end.

Fixpoint all_present (l : list (option V)) : option (list V) :=
  match l with
  | [] => Some []
  | c :: l' => x ← c; xs ← all_present l'; Some (x :: xs)
  end.

Definition clean_of (mask : list bool) (d : nat) (r : raw_row)
    : option clean_row :=
  fs ← all_present (select mask (r_feats r));
  y ← r_target r;
  Some {| c_date := d; c_feats := fs; c_label := y |}.

(** [data.dropna(how='any')] over the rows from date [d] on. *)
Fixpoint clean_from (mask : list bool) (d : nat) (rows : list raw_row)
    : list clean_row :=
  match rows with
  | [] => []
  | r :: rows' =>
      match clean_of mask d r with
      | Some c => c :: clean_from mask (S d) rows'
      | None => clean_from mask (S d) rows'
      end
  end.

Definition clean_data (rows : list raw_row) : list clean_row :=
  clean_from (kept_columns rows) 0 rows.

(** The loop's variables. [model] is also what [models_by_asset] holds. *)
Record wf_state := {
  last_retrain_day : Z;
  model : option Model;
  asset_predictions : gmap nat Prob
}.

Definition wf_init : wf_state :=
  {| last_retrain_day := -1; model := None; asset_predictions := ∅ |}.

(** [clean_data.iloc[window_start:i]] with [window_start = max(0, i - train_window)] *)
Definition history (clean : list clean_row) (i : nat) : list clean_row :=
  drop (i - train_window) (take i clean).

Definition training_set (h : list clean_row) : list (list V * Label) :=
  map (fun c => (c_feats c, c_label c)) h.

(** [y_train.nunique()] *)
Definition nunique (h : list clean_row) : nat :=
  length (remove_dups (map c_label h)).

Definition retrain_due (st : wf_state) (i : nat) : bool :=
  (last_retrain_day st =? -1)%Z
  || (last_retrain_day st + Z.of_nat retrain_every <=? Z.of_nat i)%Z
  || match model st with None => true | Some _ => false end.

(** One pass of the loop body (lines 102-127) at index [i].  The check of
    [current_row.isna()] never fires on a row of [clean_data] and is left
    to the type of [c_feats]. *)
Definition walk_step (clean : list clean_row) (st : wf_state) (i : nat)
    : wf_state :=
  let h := history clean i in
  if (length h <? min_train_window)%nat then st
  else
    let trained : option wf_state :=
      if retrain_due st i then
        if (nunique h <? 2)%nat then None
        else Some {| last_retrain_day := Z.of_nat i;
                     model := Some (fit (training_set h));
                     asset_predictions := asset_predictions st |}
      else Some st in
    match trained with
    | None => st
    | Some st' =>
        match clean !! i, model st' with
        | Some row, Some m =>
            match predict_proba m (c_feats row) with
            | Some p =>
                {| last_retrain_day := last_retrain_day st';
                   model := model st';
                   asset_predictions :=
                     <[c_date row := p]> (asset_predictions st') |}
            | None => st'
            end
        | _, _ => st'
        end
    end.

(** The state when the loop reaches index [k]: the passes
    [min_train_window], ..., [k - 1] are done. *)
Definition walk_upto (clean : list clean_row) (k : nat) : wf_state :=
  foldl (walk_step clean) wf_init
        (seq min_train_window (k - min_train_window)).

(** [for i in range(self.min_train_window, len(clean_data))] *)
Definition walk (clean : list clean_row) : wf_state :=
  walk_upto clean (length clean).

Inductive asset_outcome :=
  | Skipped
  | FallbackOnly
  | Walked (st : wf_state).

(** Lines 71-127 for one asset; [None] is a dataset without the asset's
    target column.  [X.empty]: no feature column is left. *)
Definition walk_asset (data : option (list raw_row)) : asset_outcome :=
  match data with
  | None => Skipped
  | Some rows =>
      if forallb negb (kept_columns rows) then Skipped
      else
        let clean := clean_data rows in
        if (length clean <? min_train_window)%nat then FallbackOnly
        else Walked (walk clean)
  end.

(** What the model itself wrote into [asset_predictions], by date. *)
Definition emitted (data : option (list raw_row)) : gmap nat Prob :=
  match walk_asset data with
  | Walked st => asset_predictions st
  | _ => ∅
  end.

(** [fillna(method='pad')] on one column: what [pct_change] does to the
    prices before it divides. *)
Fixpoint pad_from (last : option Q) (col : list (option Q))
    : list (option Q) :=
  match col with
  | [] => []
  | c :: col' =>
      let v := match c with Some _ => c | None => last end in
      v :: pad_from v col'
  end.

(** [cur / prev - 1 > 0] on floats: a division by 0 is plus infinity for a
    positive numerator and is not greater than 0 otherwise. *)
Definition momentum_positive (cur prev : Q) : bool :=
  if Qeq_bool prev 0 then negb (Qle_bool cur 0)
  else negb (Qle_bool (cur / prev - 1) 0).

(** [_build_fallback_series] over an index of [n] dates; [None] is a
    dataset without the asset's price column.  A missing momentum is not
    greater than 0, so the closing [fillna(0.5)] finds nothing to fill. *)
Definition build_fallback_series (n : nat) (prices : option (list (option Q)))
    : list Prob :=
  match prices with
  | None => replicate n neutral_prob
  | Some col =>
      let padded := pad_from None col in
      imap (fun t _ =>
              match padded !! t,
                    (if (lookback <=? t)%nat then padded !! (t - lookback)%nat
                     else None) with
              | Some (Some cur), Some (Some prev) =>
                  if momentum_positive cur prev then high_prob else low_prob
              | _, _ => low_prob
              end) col
  end.

(** Lines 129-136: the dates the walk left missing take the value of the
    fallback series.  [None]: the asset has no column in the result. *)
Definition generate_predictions_asset (prices : option (list (option Q)))
    (data : option (list raw_row)) : option (list Prob) :=
  let fallback :=
    build_fallback_series (length (default [] data)) prices in
  match walk_asset data with
  | Skipped => None
  | FallbackOnly => Some fallback
  | Walked st =>
      Some (imap (fun d fb => default fb (asset_predictions st !! d)) fallback)
  end.

(** [generate_predictions]: the assets of [config.ASSET_UNIVERSE] in order,
    each with its price column and its view of the dataset; the result has
    a column for every asset that was not skipped. *)
Definition generate_predictions
    (full_dataset : list (string * option (list (option Q))
                          * option (list raw_row)))
    : list (string * list Prob) :=
  omap (fun '(asset, prices, data) =>
          pair asset <$> generate_predictions_asset prices data)
       full_dataset.

(** What a pass reads of the table: the rows before [i], and the date and
    features of row [i]. *)
Definition row_key (c : clean_row) : nat * list V := (c_date c, c_feats c).

(** The value the result holds at date [d], after the fallback fill. *)
Definition prediction_at (prices : option (list (option Q)))
    (data : option (list raw_row)) (d : nat) : option Prob :=
  series ← generate_predictions_asset prices data; series !! d.

(** A model as pass [j] of the loop fits it: the window of that pass has
    at least [min_train_window] rows and two classes. *)
Definition fitted_at (clean : list clean_row) (j : nat) (m : Model) : Prop :=
  (min_train_window <= j)%nat
  /\ (min_train_window <= length (history clean j))%nat
  /\ (2 <= nunique (history clean j))%nat
  /\ m = fit (training_set (history clean j)).

(** [p] is what a model fitted at pass [j] says of row [i], the row of date
    [d], and that model is the one the loop holds at pass [i]. *)
Definition predicted_by (clean : list clean_row) (d : nat) (p : Prob) : Prop :=
  exists i row j m,
    clean !! i = Some row /\ c_date row = d
    /\ (j <= i)%nat /\ (j = i \/ i < j + retrain_every)%nat
    /\ fitted_at clean j m
    /\ predict_proba m (c_feats row) = Some p.

End Walk.

(** *** A classifier that records what it is given

    [fit] keeps the training set, and the value [predict_proba] returns
    names the training set of the model and the row it was asked about; the
    configured fallback probabilities are constants next to it. *)
Inductive recorded :=
  | Predicted (training : list (list Z * bool)) (x : list Z)
  | Constant (q : Q).

Definition recording : Classifier Z bool (list (list Z * bool)) recorded :=
  {| fit := fun t => t;
     predict_proba := fun m x => Some (Predicted m x) |}.

(** Windows of two rows, a retrain due at every step. *)
Definition small_model : WalkForwardModel :=
  {| train_window := 2; retrain_every := 1; min_train_window := 2 |}.

(** The values of [config.py]. *)
Definition config_momentum : MomentumConfig recorded :=
  {| lookback := 63;
     high_prob := Constant 0.58;
     low_prob := Constant 0.42;
     neutral_prob := Constant 0.5 |}.

Definition small_walk (data : option (list (@raw_row Z bool)))
    : gmap nat recorded :=
  emitted (clf := recording) (wfm := small_model) data.

Definition rrow (x : option Z) (y : option bool) : @raw_row Z bool :=
  {| r_feats := [x]; r_target := y |}.

(** Four dates, one feature column. *)
Definition base_data : list (@raw_row Z bool) :=
  [ rrow (Some 1%Z) (Some false); rrow (Some 2%Z) (Some true);
    rrow (Some 3%Z) (Some true); rrow (Some 4%Z) (Some true) ].

(** [base_data] with the feature of date 2 changed. *)
Definition feature_moved : list (@raw_row Z bool) :=
  [ rrow (Some 1%Z) (Some false); rrow (Some 2%Z) (Some true);
    rrow (Some 30%Z) (Some true); rrow (Some 4%Z) (Some true) ].

(** [base_data] with the label of date 2 missing. *)
Definition label_missing : list (@raw_row Z bool) :=
  [ rrow (Some 1%Z) (Some false); rrow (Some 2%Z) (Some true);
    rrow (Some 3%Z) None; rrow (Some 4%Z) (Some true) ].

(** [base_data] with the label of date 2 and the whole of date 3 changed. *)
Definition later_moved : list (@raw_row Z bool) :=
  [ rrow (Some 1%Z) (Some false); rrow (Some 2%Z) (Some true);
    rrow (Some 3%Z) (Some false); rrow (Some 40%Z) (Some false) ].

Definition rrow2 (x z : option Z) (y : option bool) : @raw_row Z bool :=
  {| r_feats := [x; z]; r_target := y |}.

(** Two feature columns, the second without any value ... *)
Definition second_column_empty : list (@raw_row Z bool) :=
  [ rrow2 (Some 1%Z) None (Some false); rrow2 (Some 2%Z) None (Some true);
    rrow2 (Some 3%Z) None (Some true); rrow2 (Some 4%Z) None (Some true) ].

(** ... and with its first value arriving on date 3. *)
Definition second_column_late : list (@raw_row Z bool) :=
  [ rrow2 (Some 1%Z) None (Some false); rrow2 (Some 2%Z) None (Some true);
    rrow2 (Some 3%Z) None (Some true);
    rrow2 (Some 4%Z) (Some 9%Z) (Some true) ].

Definition first_training_set : list (list Z * bool) :=
  [ ([1%Z], false); ([2%Z], true) ].

(** A training window shorter than the minimum the loop accepts. *)
Definition short_window_model : WalkForwardModel :=
  {| train_window := 1; retrain_every := 1; min_train_window := 2 |}.

(** [base_data] with a target that is always [true]. *)
Definition single_class_data : list (@raw_row Z bool) :=
  [ rrow (Some 1%Z) (Some true); rrow (Some 2%Z) (Some true);
    rrow (Some 3%Z) (Some true); rrow (Some 4%Z) (Some true) ].

(** Two dates of prices, the second higher. *)
Definition rising_prices : list (option Q) := [Some 1%Q; Some 2%Q].

(** *** [_get_features_for_asset]: the columns chosen by name *)

Definition macro_candidates : list string :=
  [ "fed_rate"%string; "fed_rate_diff"%string; "vix"%string; "dxy"%string;
    "biotech_flow_proxy"%string; "biotech_relative_strength_21d"%string;
    "biotech_relative_strength_63d"%string;
    "biotech_relative_strength_252d"%string ].

(** [col.startswith(pre)] *)
Definition startswith (col pre : string) : bool := String.prefix pre col.

(** [col.endswith(suf)] *)
Definition endswith (col suf : string) : bool :=
  (String.length suf <=? String.length col)%nat
  && String.eqb (substring (String.length col - String.length suf)
                           (String.length suf) col) suf.

(** [col in full_df.columns] *)
Definition is_column (columns : list string) (col : string) : bool :=
  existsb (String.eqb col) columns.

Definition asset_features (columns : list string) (asset : string)
    : list string :=
  List.filter (fun col => startswith col asset
                          && negb (endswith col "_target"%string)) columns.

Definition feature_list (columns : list string) (asset : string)
    : list string :=
  List.filter (is_column columns)
              (macro_candidates ++ asset_features columns asset).

(** The columns of a dataset with one asset and one macro series. *)
Definition ibb_columns : list string :=
  [ "IBB"%string; "IBB_ret_1d"%string; "IBB_target"%string; "vix"%string;
    "MRNA_target"%string ].

(** [full_df[name]]; column names are unique. *)
Definition column_of {V} (full_df : list (string * list (option V)))
    (name : string) : option (list (option V)) :=
  snd <$> List.find (fun c => String.eqb (fst c) name) full_df.

(** A column that [dropna(axis=1, how='all')] keeps: some date has a value. *)
Definition has_value {V} (col : list (option V)) : bool :=
  existsb (fun c => match c with Some _ => true | None => false end) col.

(** [_get_features_for_asset]: the columns named by [feature_list], in that
    order, then [features.dropna(axis=1, how='all')]. *)
Definition _get_features_for_asset {V}
    (full_df : list (string * list (option V))) (asset : string)
    : list (string * list (option V)) :=
  List.filter (fun c => has_value (snd c))
    (omap (fun name => pair name <$> column_of full_df name)
          (feature_list (map fst full_df) asset)).

(** A dataset over two dates whose price column has no value, and the same
    with a price on the second date. *)
Definition ibb_without_prices : list (string * list (option Z)) :=
  [ ("IBB"%string, [None; None]);
    ("IBB_ret_1d"%string, [None; Some 1%Z]);
    ("IBB_target"%string, [Some 0%Z; Some 1%Z]);
    ("vix"%string, [Some 20%Z; Some 21%Z]) ].

Definition ibb_with_a_price : list (string * list (option Z)) :=
  [ ("IBB"%string, [None; Some 100%Z]);
    ("IBB_ret_1d"%string, [None; Some 1%Z]);
    ("IBB_target"%string, [Some 0%Z; Some 1%Z]);
    ("vix"%string, [Some 20%Z; Some 21%Z]) ].

(** *** [add_target_variable]: the labels the walk is trained on

    One asset of the loop of [feature_engineering.add_target_variable]:
    [(df[asset].pct_change(periods=horizon).shift(-horizon) > 0).astype(int)].
    [None] is the [KeyError] of an asset without a price column.  A future
    return that is missing is not greater than 0. *)
Definition add_target_variable (horizon : nat)
    (prices : option (list (option Q))) : option (list bool) :=
  col ← prices;
  let padded := pad_from None col in
  Some (imap (fun t _ =>
                match padded !! (t + horizon)%nat, padded !! t with
                | Some (Some cur), Some (Some prev) => momentum_positive cur prev
                | _, _ => false
                end) col).

(** Prices that rise on the second date, and the same with a fall. *)
Definition falling_prices : list (option Q) := [Some 1%Q; Some (1 # 2)%Q].

End WalkForward.

(** ** Portfolio construction: [generate_target_portfolio]

    The function works date by date once the rolling statistics of the
    price table are known, so a date is given by one cell per column of
    [asset_columns]: the prediction, the momentum overlay term
    [0.15 * tanh(momentum_signal)] (never missing, infinities and NaN having
    been replaced by 0 before [tanh]) and the 60-day volatility of returns
    (missing until the window is full).  A price column without predictions
    only ever carries the weight 0 and is left out. *)

Module Portfolio.
Import QSum.
Local Open Scope Q_scope.

Record cell := {
  prediction : option Q;
  overlay : Q;
  vol : option Q
}.

(** [calculate_confidence_score]: [predictions_df - 0.5] *)
Definition calculate_confidence_score (p : option Q) : option Q :=
  (fun x => x - (1 # 2)) <$> p.

(** [confidence_scores.add(0.15 * np.tanh(momentum_signal), fill_value=0)]:
    a missing score counts as 0. *)
Definition confidence (c : cell) : Q :=
  default 0 (calculate_confidence_score (prediction c)) + overlay c.

(** [calculate_volatility_scaled_weights]: a zero volatility is made NaN
    before the division. *)
Definition raw_weight (c : cell) : option Q :=
  match vol c with
  | Some v => if Qeq_bool v 0 then None else Some (confidence c / v)
  | None => None
  end.

(** [raw_weights.where(raw_weights > 0, 0)] *)
Definition positive_weight (c : cell) : Q :=
  match raw_weight c with
  | Some w => if Qle_bool w 0 then 0 else w
  | None => 0
  end.

(** Step 4: [row_sum[row_sum == 0] = 1.0] and the division by it. *)
Definition normalized (row : list cell) : list Q :=
  let positive_weights := map positive_weight row in
  let row_sum := sumQ positive_weights in
  let row_sum := if Qeq_bool row_sum 0 then 1 else row_sum in
  map (fun w => w / row_sum) positive_weights.

(** [fallback_days]: [target_weights.sum(axis=1).fillna(0) == 0] *)
Definition fallback_day (row : list cell) : bool :=
  Qeq_bool (sumQ (normalized row)) 0.

(** [min(3, max(1, len(asset_columns)))] *)
Definition max_positions (n : nat) : nat := Nat.min 3 (Nat.max 1 n).

(** [Series.nlargest(k)], [keep='first']: the [k] largest scores, the
    earlier column first among equal scores. *)
Fixpoint insert_desc (x : nat * Q) (l : list (nat * Q)) : list (nat * Q) :=
  match l with
  | [] => [x]
  | y :: l' =>
      if Qle_bool (snd y) (snd x) then x :: y :: l'
      else y :: insert_desc x l'
  end.

Definition ranked (scores : list Q) : list (nat * Q) :=
  foldr insert_desc [] (imap pair scores).

Definition nlargest (k : nat) (scores : list Q) : list nat :=
  map fst (take k (ranked scores)).

(** One row of [fallback_alloc].  The scores are never missing, so no
    candidate is minus infinity and [valid_assets] is [top_assets]. *)
Definition fallback_alloc (row : list cell) : list Q :=
  let n := length row in
  let top_assets := nlargest (max_positions n) (map confidence row) in
  match top_assets with
  | [] => replicate n 0
  | _ =>
      let weight := 1 / inject_Z (Z.of_nat (length top_assets)) in
      map (fun i => if bool_decide (i ∈ top_assets) then weight else 0)
          (seq 0 n)
  end.

(** The asset weights before the closing renormalization. *)
Definition target_weights (row : list cell) : list Q :=
  if fallback_day row then fallback_alloc row else normalized row.

(** A row of the returned frame: the asset columns and ['Cash'].  A
    division of 0 by a zero row sum is NaN. *)
Record weight_row := { assets : list (option Q); cash : Q }.

Definition renormalize (w : list Q) : list (option Q) :=
  let row_sum := sumQ w in
  map (fun x => if Qeq_bool row_sum 0 then None else Some (x / row_sum)) w.

(** [DataFrame.sum(axis=1)], which skips NaN. *)
Definition sum_skipna (l : list (option Q)) : Q := sumQ (map (default 0) l).

Definition target_row (row : list cell) : weight_row :=
  let a := renormalize (target_weights row) in
  {| assets := a; cash := 1 - sum_skipna a |}.

Definition generate_target_portfolio (rows : list (list cell))
    : list weight_row :=
  map target_row rows.

Definition row_total (r : weight_row) : Q := sum_skipna (assets r) + cash r.

(** A neutral cell: prediction 0.5, the given overlay and volatility. *)
Definition neutral (m : Q) (v : option Q) : cell :=
  {| prediction := Some (1 # 2); overlay := m; vol := v |}.

(** Two assets at prediction 0.5, the first with a positive momentum
    overlay of 0.03, both with a volatility of 0.02. *)
Definition neutral_with_momentum : list cell :=
  [ neutral (3 # 100) (Some (1 # 50)); neutral 0 (Some (1 # 50)) ].

(** Four assets at prediction 0.5 and no momentum. *)
Definition neutral_four : list cell :=
  [ neutral 0 (Some (1 # 50)); neutral 0 (Some (1 # 50));
    neutral 0 None; neutral 0 (Some (1 # 50)) ].

(** The first [k] of [n] columns at weight [1/k], the others at 0. *)
Definition equal_weight_first (k n : nat) : list Q :=
  map (fun i => if (i <? k)%nat then 1 / inject_Z (Z.of_nat k) else 0)
      (seq 0 n).

Definition weight_is (c : option Q) (w : Q) : Prop :=
  exists x, c = Some x /\ x == w.

(** A cell without any signal: prediction 0.5 and no momentum. *)
Definition no_signal (c : cell) : Prop :=
  (exists p, prediction c = Some p /\ p == 1 # 2) /\ overlay c == 0.

(** [row.nlargest(max_positions).index] on the scores of a date. *)
Definition top_assets (row : list cell) : list nat :=
  nlargest (max_positions (length row)) (map confidence row).

(** The order of [nlargest]: the higher score first. *)
Definition score_ge (a b : nat * Q) : Prop := snd b <= snd a.

End Portfolio.

(** ** The pipeline: [run_pipeline.py], [main_novo.py]

    [target_weights = generate_target_portfolio(predictions_df, prices_df)]
    and then [Backtester(prices_df, target_weights, ...)].

    The frame [generate_target_portfolio] returns is indexed by the dates
    that have signals and has a column for every column of [prices_df]:
    [scores / volatility] keeps the columns of both frames, so a price
    column without predictions (the benchmark, a macro series) is carried
    along at weight 0.  ['Cash'] is no price column and stays out of
    [asset_list], which is thus every column of [prices_df], in the order
    of the frame. *)

Module Pipeline.
Local Open Scope Q_scope.

(** One row of the returned frame over the price columns.  [slots] gives,
    for each column of the frame, the position of that column among
    [asset_columns], or [None] for a price column without predictions. *)
Definition frame_row (slots : list (option nat)) (a : list (option Q))
    : list (option Q) :=
  map (fun s => match s with
                | Some j => mjoin (a !! j)
                | None => Some 0
                end) slots.


Definition weight_frame (slots : list (option nat))
    (signals : list (Z * list Portfolio.cell)) : gmap Z (list (option Q)) :=
  list_to_map
    (map (fun s => (s.1, frame_row slots
                           (Portfolio.assets (Portfolio.target_row s.2))))
         signals).

(** [prices_df] has its columns in the order of the frame. *)
Definition backtester_of (prices_df : list (Z * list Q))
    (slots : list (option nat)) (signals : list (Z * list Portfolio.cell))
    (transaction_cost_bps : Q) (slippage_bps : option Q)
    : Backtest.Backtester :=
  Backtest.init prices_df (weight_frame slots signals) (length slots)
                transaction_cost_bps slippage_bps.


(** Three dates of prices for a benchmark and two assets, with signals for
    the two assets from the second date on. *)
Definition benchmark_and_two_assets : list (Z * list Q) :=
  [ (0%Z, [3000; 100; 100]); (1%Z, [3030; 110; 100]);
    (2%Z, [3030; 110; 90]) ].

Definition two_asset_slots : list (option nat) := [None; Some 0%nat; Some 1%nat].

Definition two_asset_signals : list (Z * list Portfolio.cell) :=
  [ (1%Z, Portfolio.neutral_with_momentum);
    (2%Z, Portfolio.neutral_with_momentum) ].

Definition two_asset_run : Backtest.Backtester :=
  backtester_of benchmark_and_two_assets two_asset_slots two_asset_signals
                5 None.

End Pipeline.

(** * Part II: what the program does *)

(** ** Facts about sums *)

Module QSumFacts.
Import QSum.
Local Open Scope Q_scope.

Lemma sumQ_nil : sumQ [] = 0.
Proof. reflexivity. Qed.

Lemma sumQ_cons x l : sumQ (x :: l) = x + sumQ l.
Proof. reflexivity. Qed.

Lemma sumQ_app l1 l2 : sumQ (l1 ++ l2) == sumQ l1 + sumQ l2.
Proof.
  induction l1 as [|x l1 IH]; simpl.
  - rewrite sumQ_nil. lra.
  - rewrite !sumQ_cons, IH. lra.
Qed.

Lemma sumQ_nonneg l : Forall (fun x => 0 <= x) l -> 0 <= sumQ l.
Proof.
  induction 1 as [|x l Hx _ IH].
  - rewrite sumQ_nil. lra.
  - rewrite sumQ_cons. lra.
Qed.

Lemma sumQ_all_zero l : Forall (fun x => x == 0) l -> sumQ l == 0.
Proof.
  induction 1 as [|x l Hx _ IH].
  - reflexivity.
  - rewrite sumQ_cons, Hx, IH. lra.
Qed.

Lemma sumQ_replicate n x : sumQ (replicate n x) == inject_Z (Z.of_nat n) * x.
Proof.
  induction n as [|n IH].
  - change (sumQ (replicate 0 x)) with 0.
    change (inject_Z (Z.of_nat 0)) with 0. lra.
  - change (replicate (S n) x) with (x :: replicate n x).
    rewrite sumQ_cons, IH, Nat2Z.inj_succ. unfold Z.succ.
    rewrite inject_Z_plus. change (inject_Z 1) with 1. lra.
Qed.

Lemma sumQ_scale c l : sumQ (map (fun x => x * c) l) == sumQ l * c.
Proof.
  induction l as [|x l IH]; simpl.
  - rewrite sumQ_nil. lra.
  - rewrite !sumQ_cons, IH. lra.
Qed.

End QSumFacts.

(** ** The simulation engine *)

Module BacktestFacts.
Import QSum QSumFacts Backtest.
Local Open Scope Q_scope.

(** *** Lengths: the run produces one record per date *)

Lemma pct_change_from_length prev rows :
  length (pct_change_from prev rows) = length rows.
Proof. revert prev; induction rows as [|r rows IH]; intros; simpl; auto. Qed.

Lemma returns_length bt : length (returns bt) = length (prices bt).
Proof.
  unfold returns, pct_change_fillna0.
  destruct (prices bt) as [|p ps]; simpl; [reflexivity|].
  now rewrite pct_change_from_length, length_map.
Qed.

Lemma ffill_from_length prev rows :
  length (ffill_from prev rows) = length rows.
Proof. revert prev; induction rows as [|r rows IH]; intros; simpl; auto. Qed.

Lemma ffill_length rows : length (ffill rows) = length rows.
Proof. destruct rows; simpl; [|rewrite ffill_from_length]; reflexivity. Qed.

Lemma fill_equal_weight_length n w w' :
  fill_equal_weight n w = Some w' -> length w' = length w.
Proof.
  unfold fill_equal_weight.
  destruct (existsb (fun b => b) (initial_nan_mask w)); [destruct n|];
    intros [= <-]; [apply length_map|reflexivity].
Qed.

Lemma weights_length bt ws :
  weights bt = Some ws -> length ws = length (prices bt).
Proof.
  unfold weights. intros H.
  destruct (fill_equal_weight _ _) as [w|] eqn:E; simpl in H; [|discriminate].
  injection H as <-. apply fill_equal_weight_length in E.
  unfold fillna0. rewrite length_map, ffill_length, E.
  unfold reindex, index. now rewrite !length_map.
Qed.

Lemma simulate_length tc sl prev ws rs :
  length ws = length rs -> length (simulate tc sl prev ws rs) = length ws.
Proof.
  revert prev rs; induction ws as [|w ws IH]; intros prev [|r rs] H;
    simpl in *; try discriminate; auto.
Qed.


(** *** The loop invariant: what date [t] records *)

Lemma simulate_lookup tc sl prev ws rs t d :
  simulate tc sl prev ws rs !! t = Some d ->
  let held := held_in prev ws t in
  let trades := half_l1 (default [] (ws !! t)) held in
  d = {| net_return := dot held (default [] (rs !! t)) - trades * tc - trades * sl;
         turnover := trades |}.
Proof.
  revert prev rs t. induction ws as [|w ws IH]; intros prev rs t H.
  - discriminate.
  - destruct rs as [|r rs]; [discriminate|].
    destruct t as [|t]; simpl in H.
    + injection H as <-. reflexivity.
    + apply IH in H. rewrite H. destruct t; reflexivity.
Qed.

Lemma run_backtest_lookup bt ws out t d :
  weights bt = Some ws -> run_backtest bt = Some out -> out !! t = Some d ->
  turnover d = turnover_at bt ws t /\
  net_return d = gross_return_at bt ws t
                 - turnover_at bt ws t * transaction_cost bt
                 - turnover_at bt ws t * slippage bt.
Proof.
  intros Hw Hr Hd. unfold run_backtest in Hr. rewrite Hw in Hr.
  injection Hr as <-. apply simulate_lookup in Hd. subst d.
  split; reflexivity.
Qed.

Lemma half_l1_nonneg a b : 0 <= half_l1 a b.
Proof.
  unfold half_l1.
  assert (0 <= sumQ (zip_with (fun x y => Qabs (x - y)) a b)) as H.
  { apply sumQ_nonneg. revert b; induction a as [|x a IH]; intros [|y b];
      cbn [zip_with]; try (constructor; fail).
    constructor; [apply Qabs_nonneg|apply IH]. }
  apply Qle_shift_div_l; lra.
Qed.

Lemma half_l1_same a b : Forall2 Qeq a b -> half_l1 a b == 0.
Proof.
  intros H. unfold half_l1.
  assert (sumQ (zip_with (fun x y => Qabs (x - y)) a b) == 0) as ->.
  { apply sumQ_all_zero. induction H as [|x y a b Hxy _ IH];
      cbn [zip_with]; [constructor|].
    constructor; [|exact IH].
    assert (x - y == 0) as -> by lra. reflexivity. }
  reflexivity.
Qed.

Lemma dot_zero_l n r : dot (replicate n 0) r == 0.
Proof.
  unfold dot. apply sumQ_all_zero.
  revert r; induction n as [|n IH]; intros [|y r];
    cbn [zip_with replicate]; try (constructor; fail).
  constructor; [lra|apply IH].
Qed.

(** *** Main results on the simulation *)

(** The returns the loop reads are the day-on-day price changes: 0 on the
    first date, [cur / prev - 1] on every later one. *)
Lemma pct_change_from_lookup prev rows k pk pt :
  (prev :: rows) !! k = Some pk -> rows !! k = Some pt ->
  pct_change_from prev rows !! k
  = Some (zip_with (fun p c => c / p - 1) pk pt).
Proof.
  revert prev k. induction rows as [|r rows IH]; intros prev k Hk Ht;
    [discriminate|].
  destruct k as [|k]; cbn in Hk, Ht |- *.
  - injection Hk as <-. injection Ht as <-. reflexivity.
  - now apply IH.
Qed.

Lemma returns_at_first bt d0 p0 :
  prices bt !! 0%nat = Some (d0, p0) -> returns_at bt 0 = map (fun _ => 0) p0.
Proof.
  unfold returns_at, returns. destruct (prices bt) as [|[d p] ps];
    [discriminate|]. intros [= -> ->]. reflexivity.
Qed.

Lemma returns_at_later bt k dk pk dt pt :
  prices bt !! k = Some (dk, pk) -> prices bt !! S k = Some (dt, pt) ->
  returns_at bt (S k) = zip_with (fun p c => c / p - 1) pk pt.
Proof.
  intros Hk Ht. unfold returns_at, returns.
  destruct (prices bt) as [|[d p] ps]; [discriminate|].
  cbn [map snd pct_change_fillna0]. cbn [lookup list_lookup].
  change (pct_change_from p (map snd ps) !! k) with
    (pct_change_from p (snd <$> ps) !! k).
  rewrite (pct_change_from_lookup p (snd <$> ps) k pk pt).
  - reflexivity.
  - change (p :: (snd <$> ps)) with (snd <$> ((d, p) :: ps)).
    now rewrite list_lookup_fmap, Hk.
  - rewrite list_lookup_fmap.
    change (((d, p) :: ps) !! S k) with (ps !! k) in Ht. now rewrite Ht.
Qed.

(** C3. For every date [t] of a run, the recorded net return is the gross
    return minus turnover times the transaction-cost rate minus turnover
    times the slippage rate, where the gross return is the sum over the
    assets of the weight held before [t] times the asset's return on [t],
    the return on [t] is [price on t / price on the date before - 1] (0 on
    the first date), and the turnover is half the sum of the absolute
    changes of weight; with both rates 0 the net return is the gross
    return. *)
Theorem run_backtest_net_return bt ws out t d :
  weights bt = Some ws -> run_backtest bt = Some out -> out !! t = Some d ->
  net_return d
  = sumQ (zip_with Qmult (held_before (asset_count bt) ws t) (returns_at bt t))
    - sumQ (zip_with (fun a b => Qabs (a - b)) (target_at ws t)
                     (held_before (asset_count bt) ws t)) / 2
      * transaction_cost bt
    - sumQ (zip_with (fun a b => Qabs (a - b)) (target_at ws t)
                     (held_before (asset_count bt) ws t)) / 2
      * slippage bt
  /\ (transaction_cost bt == 0 /\ slippage bt == 0 ->
      net_return d
      == sumQ (zip_with Qmult (held_before (asset_count bt) ws t)
                              (returns_at bt t)))
  /\ (forall d0 p0, t = 0%nat -> prices bt !! 0%nat = Some (d0, p0) ->
      returns_at bt t = map (fun _ => 0) p0)
  /\ (forall k dk pk dt pt, t = S k ->
      prices bt !! k = Some (dk, pk) -> prices bt !! t = Some (dt, pt) ->
      returns_at bt t = zip_with (fun p c => c / p - 1) pk pt).
Proof.
  intros Hw Hr Hd.
  destruct (run_backtest_lookup _ _ _ _ _ Hw Hr Hd) as [_ Hnet].
  unfold gross_return_at, turnover_at, dot, half_l1 in Hnet.
  split; [exact Hnet|]. split; [|split].
  - intros [Htc Hsl]. rewrite Hnet, Htc, Hsl. lra.
  - intros d0 p0 -> H0. now apply (returns_at_first bt d0).
  - intros k dk pk dt pt -> Hk Ht. now apply (returns_at_later bt k dk pk dt).
Qed.

(** On the second date of the three-day run the whole capital is in the
    first asset, whose price goes from 100 to 110: the gross return is 1/10,
    the whole book is traded (turnover 1) at 5 bps, and the net return is
    1/10 - 5/10000 = 199/2000. *)
Lemma run_backtest_net_return_witness :
  returns_at three_day_bt 1 = zip_with (fun p c => c / p - 1) [100; 100] [110; 100]
  /\ net_return (nth_day three_day_out 1) == 199 # 2000
  /\ net_return (nth_day three_day_free_out 1) == 1 # 10.
Proof.
  destruct (run_backtest_net_return three_day_bt three_day_ws three_day_out 1
              (nth_day three_day_out 1) eq_refl eq_refl eq_refl)
    as (Hnet & _ & _ & Hret).
  destruct (run_backtest_net_return three_day_free three_day_ws
              three_day_free_out 1 (nth_day three_day_free_out 1)
              eq_refl eq_refl eq_refl)
    as (_ & Hfree & _ & Hret').
  split; [|split].
  - exact (Hret 0%nat 0%Z [100; 100] 1%Z [110; 100] eq_refl eq_refl eq_refl).
  - rewrite Hnet. vm_compute. reflexivity.
  - rewrite Hfree by (split; vm_compute; reflexivity).
    rewrite (Hret' 0%nat 0%Z [100; 100] 1%Z [110; 100] eq_refl eq_refl eq_refl).
    vm_compute. reflexivity.
Defined.

(** C4. The turnover recorded on date [t] is half the sum of the absolute
    differences between that date's target weights and the weights held
    before it; it is never negative, and it is 0 when the two vectors are
    equal. *)
Theorem run_backtest_turnover bt ws out t d :
  weights bt = Some ws -> run_backtest bt = Some out -> out !! t = Some d ->
  turnover d
    = sumQ (zip_with (fun a b => Qabs (a - b)) (target_at ws t)
                     (held_before (asset_count bt) ws t)) / 2
  /\ 0 <= turnover d
  /\ (Forall2 Qeq (target_at ws t) (held_before (asset_count bt) ws t) ->
      turnover d == 0).
Proof.
  intros Hw Hr Hd.
  destruct (run_backtest_lookup _ _ _ _ _ Hw Hr Hd) as [Hto _].
  rewrite Hto. unfold turnover_at. split; [reflexivity|]. split.
  - apply half_l1_nonneg.
  - apply half_l1_same.
Qed.

(** The three-day run: the first date buys the first asset from nothing
    (turnover 1/2), the second date moves the whole book from the first
    asset to the second (turnover (|0 - 1| + |1 - 0|) / 2 = 1), the third
    date changes nothing (turnover 0). *)
Lemma run_backtest_turnover_witness :
  turnover (nth_day three_day_out 0) == 1 # 2
  /\ turnover (nth_day three_day_out 1) == 1
  /\ turnover (nth_day three_day_out 2) == 0.
Proof.
  destruct (run_backtest_turnover three_day_bt three_day_ws three_day_out 0
              (nth_day three_day_out 0) eq_refl eq_refl eq_refl)
    as (Hfirst & _ & _).
  destruct (run_backtest_turnover three_day_bt three_day_ws three_day_out 1
              (nth_day three_day_out 1) eq_refl eq_refl eq_refl)
    as (Hsecond & _ & _).
  destruct (run_backtest_turnover three_day_bt three_day_ws three_day_out 2
              (nth_day three_day_out 2) eq_refl eq_refl eq_refl)
    as (_ & _ & Hthird).
  split; [|split].
  - rewrite Hfirst. vm_compute. reflexivity.
  - rewrite Hsecond. vm_compute. reflexivity.
  - apply Hthird. vm_compute. repeat constructor.
Defined.

(** C5, evaluated where it fails.  The middle date of [gap_bt] is missing
    from the target table and is not a leading date; the weight table the
    loop reads has the equal weight 1/2 there, where forward-filling the
    previous row would give [1; 0]. *)
Lemma interior_gap_gets_equal_weight :
  weights gap_bt = Some [[1; 0]; [1 # 2; 1 # 2]; [0; 1]]
  /\ ffill_only gap_bt = [[1; 0]; [1; 0]; [0; 1]].
Proof. split; vm_compute; reflexivity. Qed.

(** Every row the reindexed table has entirely missing is set to the equal
    weight, wherever it stands. *)
Lemma fill_equal_weight_every_missing_row n w w' t r :
  fill_equal_weight n w = Some w' -> w !! t = Some r ->
  forallb isna r = true ->
  w' !! t = Some (replicate n (Some (1 / inject_Z (Z.of_nat n)))).
Proof.
  unfold fill_equal_weight. intros H Hr Hna.
  destruct (existsb (fun b => b) (initial_nan_mask w)) eqn:E.
  - destruct n as [|n]; [discriminate|]. injection H as <-.
    rewrite list_lookup_fmap, Hr. simpl. now rewrite Hna.
  - exfalso. apply Bool.not_true_iff_false in E. apply E.
    apply existsb_exists. exists true. split; [|reflexivity].
    unfold initial_nan_mask. apply in_map_iff. exists r. split; [exact Hna|].
    apply list_elem_of_In. eapply list_elem_of_lookup_2; eauto.
Qed.

(** C9, as the code has it.  On the first date the held position is all
    zero: the gross return is 0, the turnover is half the sum of the
    absolute target weights, and the net return is minus that turnover
    times the sum of the two rates.  It is not positive when neither rate
    is negative, and it is positive when the target is not all zero and the
    two rates sum to less than 0. *)
Theorem first_day_net_return bt ws out d :
  weights bt = Some ws -> run_backtest bt = Some out -> out !! 0%nat = Some d ->
  sumQ (zip_with Qmult (replicate (asset_count bt) 0) (returns_at bt 0)) == 0
  /\ turnover d
     = sumQ (zip_with (fun a b => Qabs (a - b)) (target_at ws 0)
                      (replicate (asset_count bt) 0)) / 2
  /\ net_return d == - (turnover d * (transaction_cost bt + slippage bt))
  /\ (0 <= transaction_cost bt -> 0 <= slippage bt -> net_return d <= 0)
  /\ (0 < turnover d -> transaction_cost bt + slippage bt < 0 ->
      0 < net_return d).
Proof.
  intros Hw Hr Hd.
  destruct (run_backtest_lookup _ _ _ _ _ Hw Hr Hd) as [Hto Hnet].
  assert (gross_return_at bt ws 0 == 0) as Hg by apply dot_zero_l.
  assert (0 <= turnover d) as Hpos.
  { rewrite Hto. apply half_l1_nonneg. }
  split; [exact Hg|]. split; [exact Hto|].
  assert (net_return d == - (turnover d * (transaction_cost bt + slippage bt)))
    as Hfirst.
  { rewrite Hnet, Hg, <- Hto. lra. }
  split; [exact Hfirst|]. split.
  - intros Htc Hsl.
    assert (0 <= turnover d * transaction_cost bt)
      by (apply Qmult_le_0_compat; lra).
    assert (0 <= turnover d * slippage bt) by (apply Qmult_le_0_compat; lra).
    rewrite Hfirst. lra.
  - intros Hto0 Hrate. rewrite Hfirst.
    assert (0 < turnover d * - (transaction_cost bt + slippage bt))
      by (apply Qmult_lt_0_compat; lra).
    lra.
Qed.

(** The first date of the three-day run buys the first asset from nothing:
    turnover 1/2, at 5 bps, so the net return is -1/4000. *)
Lemma first_day_net_return_witness :
  turnover (nth_day three_day_out 0) == 1 # 2
  /\ net_return (nth_day three_day_out 0) == - (1 # 4000)
  /\ net_return (nth_day three_day_out 0) <= 0.
Proof.
  destruct (first_day_net_return three_day_bt three_day_ws three_day_out
              (nth_day three_day_out 0) eq_refl eq_refl eq_refl)
    as (_ & Hto & Hnet & Hle & _).
  split; [|split].
  - rewrite Hto. vm_compute. reflexivity.
  - rewrite Hnet, Hto. vm_compute. reflexivity.
  - apply Hle; vm_compute; discriminate.
Defined.

(** C9 as stated fails at [rebate_bt]: the constructor takes a cost of
    -5 bps, the rate is -1/2000, and the first date, which buys the first
    asset from nothing at turnover 1/2, records the net return +1/4000. *)
Lemma negative_cost_pays_on_the_first_day :
  Qred (transaction_cost rebate_bt) = -1 # 2000
  /\ run_backtest rebate_bt = Some rebate_out
  /\ Qred (turnover (nth_day rebate_out 0)) = 1 # 2
  /\ Qred (net_return (nth_day rebate_out 0)) = 1 # 4000.
Proof. repeat split. Qed.

(** *** The weight table: which rows are read as given, which are made up *)

Lemma zip_ffill_complete prev r :
  length prev = length r -> Forall is_Some r -> zip_with ffill_cell prev r = r.
Proof.
  intros Hl Hr. revert prev Hl.
  induction Hr as [|c r [v ->] _ IH]; intros [|p prev] Hl;
    try discriminate; [reflexivity|].
  cbn [zip_with ffill_cell]. f_equal. apply IH. now injection Hl.
Qed.

Lemma ffill_from_row n prev rows t r :
  length prev = n -> Forall (fun r => length r = n) rows ->
  rows !! t = Some r -> Forall is_Some r ->
  ffill_from prev rows !! t = Some r.
Proof.
  intros Hp Hrows. revert prev Hp t.
  induction Hrows as [|r0 rows Hr0 _ IH]; intros prev Hp t Ht Hc;
    [discriminate|].
  cbn [ffill_from].
  assert (length (zip_with ffill_cell prev r0) = n) as Hz.
  { rewrite length_zip_with, Hp, Hr0. lia. }
  destruct t as [|t].
  - injection Ht as ->. cbn. f_equal.
    apply zip_ffill_complete; [congruence|exact Hc].
  - cbn. now apply IH.
Qed.

Lemma ffill_row n rows t r :
  Forall (fun r => length r = n) rows ->
  rows !! t = Some r -> Forall is_Some r -> ffill rows !! t = Some r.
Proof.
  intros Hrows Ht Hc. destruct rows as [|r0 rows]; [discriminate|].
  cbn [ffill]. destruct t as [|t]; [exact Ht|]. cbn.
  apply (ffill_from_row n); auto.
  - now apply Forall_cons in Hrows as [? _].
  - now apply Forall_cons in Hrows as [_ ?].
Qed.

Lemma reindex_rows_length bt :
  table_well_formed bt ->
  Forall (fun r => length r = asset_count bt)
         (reindex (asset_count bt) (target_weights bt) (index bt)).
Proof.
  intros Hwf. unfold reindex. apply Forall_fmap, Forall_forall.
  intros d _. cbn. destruct (target_weights bt !! d) as [r|] eqn:E.
  - exact (Hwf d r E).
  - apply length_replicate.
Qed.

Lemma fill_equal_weight_lookup n w w' t r :
  fill_equal_weight n w = Some w' -> w !! t = Some r ->
  w' !! t = Some (if forallb isna r
                  then replicate n (Some (1 / inject_Z (Z.of_nat n))) else r).
Proof.
  unfold fill_equal_weight. intros H Hr.
  destruct (existsb (fun b => b) (initial_nan_mask w)) eqn:E.
  - destruct n as [|n]; [discriminate|]. injection H as <-.
    now rewrite list_lookup_fmap, Hr.
  - injection H as <-.
    destruct (forallb isna r) eqn:Hna; [|exact Hr].
    exfalso. apply Bool.not_true_iff_false in E. apply E.
    apply existsb_exists. exists true. split; [|reflexivity].
    unfold initial_nan_mask. apply in_map_iff. exists r. split; [exact Hna|].
    apply list_elem_of_In. eapply list_elem_of_lookup_2; eauto.
Qed.

Lemma fill_equal_weight_rows_length n w w' :
  fill_equal_weight n w = Some w' ->
  Forall (fun r => length r = n) w -> Forall (fun r => length r = n) w'.
Proof.
  intros H Hw. apply Forall_lookup. intros t r' Ht.
  destruct (w !! t) as [r|] eqn:Er.
  - rewrite (fill_equal_weight_lookup n w w' t r H Er) in Ht.
    injection Ht as <-. destruct (forallb isna r); [apply length_replicate|].
    rewrite Forall_lookup in Hw. exact (Hw t r Er).
  - apply lookup_ge_None in Er. apply lookup_lt_Some in Ht.
    apply fill_equal_weight_length in H. lia.
Qed.

Lemma forallb_isna_replicate n : forallb isna (replicate n None) = true.
Proof. induction n as [|n IH]; [reflexivity|exact IH]. Qed.

Lemma weights_row bt ws t d :
  table_well_formed bt -> weights bt = Some ws -> index bt !! t = Some d ->
  let r := default (replicate (asset_count bt) None) (target_weights bt !! d) in
  let r' := if forallb isna r
            then replicate (asset_count bt)
                   (Some (1 / inject_Z (Z.of_nat (asset_count bt))))
            else r in
  Forall is_Some r' -> ws !! t = Some (map (default 0) r').
Proof.
  intros Hwf Hw Ht r r' Hc. unfold weights in Hw.
  destruct (fill_equal_weight _ _) as [w'|] eqn:E; [|discriminate].
  injection Hw as <-.
  assert (reindex (asset_count bt) (target_weights bt) (index bt) !! t
          = Some r) as Hr.
  { unfold reindex. now rewrite list_lookup_fmap, Ht. }
  pose proof (fill_equal_weight_lookup _ _ _ _ _ E Hr) as Hr'.
  pose proof (fill_equal_weight_rows_length _ _ _ E
                (reindex_rows_length bt Hwf)) as Hlen.
  unfold fillna0. rewrite list_lookup_fmap.
  now rewrite (ffill_row (asset_count bt) w' t r' Hlen Hr' Hc).
Qed.

(** X1. A price date that the target table does not have is given the
    equal weight [1 / n] on every asset, wherever the date stands in the
    index. *)
Theorem missing_date_gets_equal_weight bt ws t d :
  table_well_formed bt -> weights bt = Some ws ->
  index bt !! t = Some d -> target_weights bt !! d = None ->
  ws !! t = Some (replicate (asset_count bt)
                    (1 / inject_Z (Z.of_nat (asset_count bt)))).
Proof.
  intros Hwf Hw Ht Hd.
  pose proof (weights_row bt ws t d Hwf Hw Ht) as H. rewrite Hd in H.
  cbn [default from_option] in H.
  cbv zeta in H. rewrite forallb_isna_replicate in H. rewrite H.
  - f_equal. apply (fmap_replicate (default 0)).
  - apply Forall_forall. intros c Hc.
    apply elem_of_replicate in Hc as [-> _]. eexists; reflexivity.
Qed.

Lemma missing_date_gets_equal_weight_witness :
  default [] (weights gap_bt) !! 1%nat = Some [1 / 2; 1 / 2].
Proof.
  apply (missing_date_gets_equal_weight gap_bt (default [] (weights gap_bt))
           1 1%Z).
  - intros d r. unfold gap_bt, gap_targets, init; cbn [target_weights].
    intros H. apply lookup_insert_Some in H as [[_ <-]|[_ H]]; [reflexivity|].
    apply lookup_insert_Some in H as [[_ <-]|[_ H]]; [reflexivity|].
    rewrite lookup_empty in H. discriminate.
  - vm_compute; reflexivity.
  - reflexivity.
  - vm_compute; reflexivity.
Defined.

(** X2. A price date whose row in the target table has a value in every
    cell is read as it is given: neither the equal-weight fill nor the
    forward fill touches it. *)
Theorem complete_row_is_read_as_given bt ws t d r :
  table_well_formed bt -> weights bt = Some ws ->
  index bt !! t = Some d -> target_weights bt !! d = Some r ->
  Forall is_Some r ->
  ws !! t = Some (map (default 0) r).
Proof.
  intros Hwf Hw Ht Hd Hc.
  pose proof (weights_row bt ws t d Hwf Hw Ht) as H. rewrite Hd in H.
  cbn [default from_option] in H. cbv zeta in H. unfold Datatypes.id in H.
  destruct (forallb isna r) eqn:Hna.
  - assert (r = []) as ->.
    { destruct r as [|c r]; [reflexivity|].
      apply Forall_cons in Hc as [[v ->] _]. discriminate. }
    pose proof (Hwf d [] Hd) as Hn. cbn in Hn. rewrite <- Hn in H.
    apply H. constructor.
  - now apply H.
Qed.

Lemma complete_row_is_read_as_given_witness :
  default [] (weights three_day_bt) !! 1%nat = Some [0; 1].
Proof.
  apply (complete_row_is_read_as_given three_day_bt
           (default [] (weights three_day_bt)) 1 1%Z [Some 0; Some 1]).
  - intros d r. unfold three_day_bt, three_day_targets, init;
      cbn [target_weights].
    intros H. apply lookup_insert_Some in H as [[_ <-]|[_ H]]; [reflexivity|].
    apply lookup_insert_Some in H as [[_ <-]|[_ H]]; [reflexivity|].
    apply lookup_insert_Some in H as [[_ <-]|[_ H]]; [reflexivity|].
    rewrite lookup_empty in H. discriminate.
  - vm_compute; reflexivity.
  - reflexivity.
  - vm_compute; reflexivity.
  - repeat constructor; eexists; reflexivity.
Defined.

(** *** When the run raises *)

(** X3. Over a well-formed target table, [run_backtest] raises exactly when
    the asset list is empty and the price index is not; otherwise it returns
    one record per price date. *)
Theorem run_backtest_raises_iff bt :
  table_well_formed bt ->
  (run_backtest bt = None <-> asset_count bt = 0%nat /\ prices bt <> [])
  /\ (forall out, run_backtest bt = Some out ->
        length out = length (prices bt)).
Proof.
  intros Hwf. split.
  - unfold run_backtest, weights.
    destruct (fill_equal_weight _ _) as [w|] eqn:E; cbn.
    + split; [discriminate|]. intros [Hn Hp]. exfalso.
      unfold fill_equal_weight in E. rewrite Hn in E.
      destruct (existsb _ _) eqn:Ex; [discriminate|].
      apply Bool.not_true_iff_false in Ex. apply Ex.
      destruct (prices bt) as [|[d0 p0] ps] eqn:Ep; [congruence|].
      unfold index. rewrite Ep. cbn.
      destruct (target_weights bt !! d0) as [r|] eqn:Er; cbn.
      * pose proof (Hwf d0 r Er) as Hl. rewrite Hn in Hl.
        destruct r; [reflexivity|discriminate].
      * reflexivity.
    + split; [|reflexivity]. intros _.
      unfold fill_equal_weight in E.
      destruct (existsb _ _) eqn:Ex; [|discriminate].
      destruct (asset_count bt) as [|n]; [|discriminate].
      split; [reflexivity|]. intros Hp.
      unfold index in Ex. rewrite Hp in Ex. discriminate.
  - intros out Hr. unfold run_backtest in Hr.
    destruct (weights bt) as [ws|] eqn:E; [|discriminate].
    injection Hr as <-. pose proof (weights_length _ _ E) as Hl.
    rewrite simulate_length; [exact Hl|]. now rewrite returns_length.
Qed.

Lemma run_backtest_raises_iff_witness : run_backtest no_asset_bt = None.
Proof.
  apply (run_backtest_raises_iff no_asset_bt).
  - intros d r H. cbn in H. rewrite lookup_empty in H. discriminate.
  - split; [reflexivity|discriminate].
Defined.

(** *** Bounds on the turnover *)

Lemma sum_abs_diff_le a b :
  Forall (fun w => 0 <= w) a -> Forall (fun w => 0 <= w) b ->
  sumQ (zip_with (fun x y => Qabs (x - y)) a b) <= sumQ a + sumQ b.
Proof.
  intros Ha. revert b. induction Ha as [|x a Hx Ha IH]; intros b Hb.
  - cbn [zip_with]. rewrite !sumQ_nil.
    pose proof (sumQ_nonneg _ Hb). lra.
  - destruct Hb as [|y b Hy Hb]; cbn [zip_with].
    + rewrite sumQ_cons, !sumQ_nil.
      pose proof (sumQ_nonneg _ Ha). lra.
    + rewrite !sumQ_cons. specialize (IH b Hb).
      assert (Qabs (x - y) <= x + y) as Habs.
      { apply Qabs_Qle_condition. split; lra. }
      lra.
Qed.

Lemma half_l1_le_one a b : long_only a -> long_only b -> half_l1 a b <= 1.
Proof.
  intros [Ha Hsa] [Hb Hsb]. unfold half_l1.
  pose proof (sum_abs_diff_le a b Ha Hb) as H.
  apply Qle_shift_div_r; lra.
Qed.

Lemma long_only_zeros n : long_only (replicate n 0).
Proof.
  split.
  - apply Forall_forall. intros w Hw.
    apply elem_of_replicate in Hw as [-> _]. lra.
  - rewrite sumQ_replicate. lra.
Qed.

Lemma long_only_nil : long_only [].
Proof. split; [constructor|rewrite sumQ_nil; lra]. Qed.

Lemma held_before_long_only n ws t :
  Forall long_only ws -> long_only (held_before n ws t).
Proof.
  intros Hws. destruct t as [|k]; cbn [held_before].
  - apply long_only_zeros.
  - destruct (ws !! k) as [row|] eqn:E; cbn.
    + rewrite Forall_lookup in Hws. exact (Hws k row E).
    + apply long_only_nil.
Qed.



Lemma sum_abs_minus_zero n row :
  (length row <= n)%nat -> Forall (fun w => 0 <= w) row ->
  sumQ (zip_with (fun x y => Qabs (x - y)) row (replicate n 0)) == sumQ row.
Proof.
  intros Hl Hrow. revert n Hl.
  induction Hrow as [|x row Hx _ IH]; intros n Hl.
  - reflexivity.
  - destruct n as [|n]; [cbn in Hl; lia|].
    cbn [replicate zip_with]. rewrite !sumQ_cons, IH by (cbn in Hl; lia).
    assert (Qabs (x - 0) == x) as ->; [|reflexivity].
    assert (x - 0 == x) as -> by lra. now apply Qabs_pos.
Qed.

(** X5. The first date is charged half of what is bought: with non-negative
    target weights the first turnover is half their sum, which is 1/2 for a
    fully invested target. *)
Theorem first_day_turnover_is_half bt ws out d row :
  table_well_formed bt ->
  weights bt = Some ws -> run_backtest bt = Some out ->
  out !! 0%nat = Some d -> ws !! 0%nat = Some row ->
  Forall (fun w => 0 <= w) row ->
  turnover d == sumQ row / 2.
Proof.
  intros Hwf Hw Hr Hd Hrow Hpos.
  destruct (run_backtest_lookup _ _ _ _ _ Hw Hr Hd) as [Hto _].
  assert (length row = asset_count bt) as Hlen.
  { unfold weights in Hw.
    destruct (fill_equal_weight _ _) as [w'|] eqn:E; [|discriminate].
    injection Hw as <-.
    pose proof (fill_equal_weight_rows_length _ _ _ E
                  (reindex_rows_length bt Hwf)) as Hl.
    unfold fillna0 in Hrow. rewrite list_lookup_fmap in Hrow.
    destruct (ffill w' !! 0%nat) as [r|] eqn:Er; [|discriminate].
    injection Hrow as <-. rewrite length_map.
    destruct w' as [|r0 w']; [discriminate|]. cbn in Er.
    injection Er as <-. now apply Forall_cons in Hl as [? _]. }
  rewrite Hto. unfold turnover_at, target_at, half_l1. rewrite Hrow.
  cbn [default from_option held_before]. unfold Datatypes.id.
  rewrite sum_abs_minus_zero by (auto; lia). reflexivity.
Qed.

Lemma first_day_turnover_is_half_witness :
  turnover (nth_day three_day_out 0) == sumQ [1; 0] / 2.
Proof.
  apply (first_day_turnover_is_half three_day_bt three_day_ws three_day_out
           (nth_day three_day_out 0) [1; 0]).
  - intros d r. unfold three_day_bt, three_day_targets, init;
      cbn [target_weights].
    intros H. apply lookup_insert_Some in H as [[_ <-]|[_ H]]; [reflexivity|].
    apply lookup_insert_Some in H as [[_ <-]|[_ H]]; [reflexivity|].
    apply lookup_insert_Some in H as [[_ <-]|[_ H]]; [reflexivity|].
    rewrite lookup_empty in H. discriminate.
  - vm_compute; reflexivity.
  - vm_compute; reflexivity.
  - vm_compute; reflexivity.
  - reflexivity.
  - repeat first [apply Forall_cons; split | apply Forall_nil | exact I];
      vm_compute; discriminate.
Defined.

(** *** What the run deducts and what the report totals *)

Lemma sum_net_split tc sl (g : nat -> Q) out k :
  (forall t d, out !! t = Some d ->
     net_return d == g (k + t)%nat - turnover d * tc - turnover d * sl) ->
  sumQ (map net_return out)
  == sumQ (map g (seq k (length out)))
     - sumQ (map (fun d => turnover d * tc) out)
     - sumQ (map (fun d => turnover d * sl) out).
Proof.
  revert k. induction out as [|d out IH]; intros k H.
  - cbn [map length seq]. rewrite !sumQ_nil. lra.
  - cbn [map length seq]. rewrite !sumQ_cons.
    rewrite (IH (S k)).
    + pose proof (H 0%nat d eq_refl) as H0.
      rewrite Nat.add_0_r in H0. rewrite H0. lra.
    + intros t d' Hd. rewrite (H (S t) d' Hd).
      now replace (k + S t)%nat with (S k + t)%nat by lia.
Qed.

Lemma sumQ_map_turnover_scale c out :
  sumQ (map (fun d => turnover d * c) out) == sumQ (map turnover out) * c.
Proof.
  rewrite <- sumQ_scale. now rewrite map_map.
Qed.

(** X6. The totals of the report are what the run deducted: the net returns
    add up to the gross returns less the total transaction costs and the
    total slippage, and each of these totals is the total turnover times its
    rate. *)
Theorem costs_reported_are_costs_deducted bt ws out :
  weights bt = Some ws -> run_backtest bt = Some out ->
  sumQ (map net_return out)
  == sumQ (gross_returns bt ws (length out))
     - total_transaction_costs bt out - estimated_total_slippage bt out
  /\ total_transaction_costs bt out == total_turnover out * transaction_cost bt
  /\ estimated_total_slippage bt out == total_turnover out * slippage bt.
Proof.
  intros Hw Hr. split; [|split].
  - unfold gross_returns, total_transaction_costs, estimated_total_slippage.
    apply (sum_net_split _ _ (gross_return_at bt ws) out 0).
    intros t d Hd.
    destruct (run_backtest_lookup _ _ _ _ _ Hw Hr Hd) as [Hto Hnet].
    rewrite Hnet, Hto. reflexivity.
  - apply sumQ_map_turnover_scale.
  - apply sumQ_map_turnover_scale.
Qed.

Lemma costs_reported_are_costs_deducted_witness :
  sumQ (map net_return three_day_out)
  == sumQ (gross_returns three_day_bt three_day_ws (length three_day_out))
     - total_transaction_costs three_day_bt three_day_out
     - estimated_total_slippage three_day_bt three_day_out
  /\ total_transaction_costs three_day_bt three_day_out
     == total_turnover three_day_out * transaction_cost three_day_bt
  /\ estimated_total_slippage three_day_bt three_day_out
     == total_turnover three_day_out * slippage three_day_bt.
Proof.
  apply (costs_reported_are_costs_deducted three_day_bt three_day_ws
           three_day_out); vm_compute; reflexivity.
Defined.

Lemma sumQ_bounded l :
  Forall (fun x => 0 <= x /\ x <= 1) l ->
  0 <= sumQ l /\ sumQ l <= inject_Z (Z.of_nat (length l)).
Proof.
  induction 1 as [|x l [H0 H1] _ [IH0 IH1]].
  - rewrite sumQ_nil. cbn [length].
    change (inject_Z (Z.of_nat 0)) with 0. lra.
  - rewrite sumQ_cons. cbn [length].
    rewrite Nat2Z.inj_succ, <- Z.add_1_r, inject_Z_plus.
    change (inject_Z 1) with 1. lra.
Qed.

(** X7. With long-only weight rows that invest at most the whole capital,
    the average annual turnover of the report lies between 0 and 252, and
    the annual slippage estimate is at most 252 times the slippage rate in
    absolute value, whatever the sign of the rate. *)
Theorem avg_annual_turnover_bounded bt ws out a s :
  weights bt = Some ws -> run_backtest bt = Some out ->
  Forall long_only ws ->
  avg_annual_turnover out = Some a ->
  estimated_annual_slippage bt out = Some s ->
  0 <= a /\ a <= 252 /\ s == a * slippage bt
  /\ Qabs s <= 252 * Qabs (slippage bt).
Proof.
  intros Hw Hr Hws Ha Hs.
  assert (Forall (fun x => 0 <= x /\ x <= 1) (map turnover out)) as Hb.
  { apply Forall_forall. intros x Hx.
    apply list_elem_of_fmap in Hx as (d & -> & Hd).
    apply list_elem_of_lookup in Hd as [t Hd].
    destruct (run_backtest_lookup _ _ _ _ _ Hw Hr Hd) as [Hto _].
    split.
    - rewrite Hto. apply half_l1_nonneg.
    - rewrite Hto. unfold turnover_at. apply half_l1_le_one.
      + unfold target_at. destruct (ws !! t) as [row|] eqn:E; cbn.
        * rewrite Forall_lookup in Hws. exact (Hws t row E).
        * apply long_only_nil.
      + now apply held_before_long_only. }
  apply sumQ_bounded in Hb as [H0 H1].
  unfold avg_annual_turnover, estimated_annual_slippage, series_mean in Ha, Hs.
  destruct (map turnover out) as [|x l] eqn:E; [discriminate|].
  cbn in Ha, Hs. injection Ha as <-. injection Hs as <-.
  set (n := inject_Z (Z.of_nat (length (x :: l)))) in *.
  assert (0 < n) as Hn.
  { unfold n. change 0 with (inject_Z 0). rewrite <- Zlt_Qlt.
    cbn [length]. lia. }
  assert (0 <= sumQ (x :: l) / n) as Hm0.
  { apply Qle_shift_div_l; lra. }
  assert (sumQ (x :: l) / n <= 1) as Hm1.
  { apply Qle_shift_div_r; lra. }
  change (inject_Z (Z.of_nat (S (length l)))) with n.
  set (m := sumQ (x :: l) / n) in *. clearbody m.
  split; [lra|]. split; [lra|]. split; [reflexivity|].
  rewrite Qabs_Qmult. rewrite (Qabs_pos (m * 252)) by lra.
  apply Qmult_le_compat_r; [lra|apply Qabs_nonneg].
Qed.

(** The three-day run with a slippage of -2 bps: the turnovers are 1/2, 1
    and 0, the average annual turnover is 1/2 * 252 = 126 and the estimate
    is 126 * (-1/5000) = -63/2500. *)
Lemma avg_annual_turnover_bounded_witness :
  Qred (default 0 (avg_annual_turnover negative_slippage_out)) = 126
  /\ Qred (default 0 (estimated_annual_slippage negative_slippage_bt
                        negative_slippage_out)) = -63 # 2500
  /\ Qabs (default 0 (estimated_annual_slippage negative_slippage_bt
                        negative_slippage_out))
     <= 252 * Qabs (slippage negative_slippage_bt).
Proof.
  destruct (avg_annual_turnover_bounded negative_slippage_bt three_day_ws
              negative_slippage_out
              (default 0 (avg_annual_turnover negative_slippage_out))
              (default 0 (estimated_annual_slippage negative_slippage_bt
                            negative_slippage_out)))
    as (_ & _ & _ & Habs).
  - vm_compute; reflexivity.
  - vm_compute; reflexivity.
  - unfold three_day_ws, long_only.
    repeat first [apply Forall_cons; split | apply Forall_nil | split];
      vm_compute; discriminate.
  - reflexivity.
  - reflexivity.
  - split; [reflexivity|]. split; [reflexivity|exact Habs].
Defined.

End BacktestFacts.

(** ** The metrics engine *)

Module MetricsFacts.
Import Metrics.
Local Open Scope R_scope.

(** *** Series that are constant *)

Lemma all_eq_replicate (c : R) l :
  Forall (fun x => x = c) l -> l = replicate (length l) c.
Proof. induction 1 as [|x l -> _ IH]; simpl; [reflexivity|now f_equal]. Qed.

Lemma sumR_replicate_0 n : sumR (replicate n 0) = 0.
Proof.
  induction n as [|n IH]; [reflexivity|].
  change (sumR (replicate (S n) 0)) with (0 + sumR (replicate n 0)).
  rewrite IH. lra.
Qed.

Lemma cumprod_ones n : cumprod_from 1 (replicate n 1) = replicate n 1.
Proof.
  induction n as [|n IH]; [reflexivity|].
  simpl. rewrite Rmult_1_l. now f_equal.
Qed.

Lemma cummax_from_ones n : cummax_from 1 (replicate n 1) = replicate n 1.
Proof.
  induction n as [|n IH]; [reflexivity|].
  simpl. rewrite Rmax_left by lra. now f_equal.
Qed.

Lemma equity_curve_zero n : equity_curve (replicate n 0) = replicate n 1.
Proof.
  unfold equity_curve.
  assert (map (fun r => 1 + r) (replicate n 0) = replicate n 1) as ->.
  { induction n as [|n IH]; [reflexivity|].
    simpl. rewrite Rplus_0_r. now f_equal. }
  apply cumprod_ones.
Qed.

Lemma last_replicate (c d : R) n : List.last (replicate (S n) c) d = c.
Proof. induction n as [|n IH]; [reflexivity|]. exact IH. Qed.

Lemma max_drawdown_ones n : max_drawdown_of (replicate (S n) 1) = Finite 0.
Proof.
  unfold max_drawdown_of, cummax.
  change (replicate (S n) 1) with (1 :: replicate n 1).
  cbv beta iota. rewrite cummax_from_ones.
  change (1 :: replicate n 1) with (replicate (S n) 1).
  assert (drawdown_cell 1 1 = Finite 0) as Hc.
  { unfold drawdown_cell. destruct (Req_dec_T 1 0); [lra|]. f_equal. field. }
  induction n as [|n IH].
  - simpl. now rewrite Hc.
  - change (replicate (S (S n)) 1) with (1 :: replicate (S n) 1).
    cbn [zip_with foldr]. rewrite IH, Hc. simpl. f_equal.
    apply Rmin_left. lra.
Qed.

Lemma std_zero n : std (replicate (S (S n)) 0) = Some 0.
Proof.
  unfold std.
  change (replicate (S (S n)) 0) with (0 :: 0 :: replicate n 0) at 1.
  cbv beta iota. f_equal.
  rewrite sumR_replicate_0.
  replace (0 / INR (length (replicate (S (S n)) 0))) with 0
    by (unfold Rdiv; ring).
  assert (map (fun x => (x - 0) * (x - 0)) (replicate (S (S n)) 0)
          = replicate (S (S n)) 0) as ->.
  { generalize (S (S n)) as k. induction k as [|k IH]; [reflexivity|].
    simpl. rewrite IH. f_equal. ring. }
  rewrite sumR_replicate_0. unfold Rdiv. rewrite Rmult_0_l. apply sqrt_0.
Qed.

Lemma fpow_one e : fpow 1 e = Some 1.
Proof.
  unfold fpow. destruct (Rlt_dec 0 1); [|lra].
  f_equal. unfold Rpower. rewrite ln_1, Rmult_0_r. apply exp_0.
Qed.

Lemma elapsed_positive_two_rows (results : list (Z * R)) :
  (0 < elapsed_days results)%Z -> (2 <= length results)%nat.
Proof.
  destruct results as [|[d0 r0] [|p rest]]; simpl; try lia.
Qed.

Lemma n_years_positive d0 d1 : 0 < n_years d0 d1 <-> (0 < d1 - d0)%Z.
Proof.
  unfold n_years. split; intros H.
  - apply lt_IZR. assert (0 < 365.25) by lra.
    apply Rmult_lt_reg_r with (r := / 365.25).
    + now apply Rinv_0_lt_compat.
    + unfold Rdiv in H. lra.
  - apply IZR_lt in H. apply Rdiv_lt_0_compat; lra.
Qed.

(** *** Main results on the metrics *)

(** C7, as the code has it.  On a series of zero returns over a span of at
    least one day the Sharpe ratio is not-a-number, the maximum drawdown is
    0, and CAGR is the number 0 (1 to any power, minus 1), not NaN.  CAGR is
    not-a-number whenever the elapsed span is not positive, and the Sharpe
    ratio is not-a-number whenever the volatility is 0. *)
Theorem metrics_undefined_cases results m :
  calculate_performance_metrics results = Some m ->
  (Forall (fun x => snd x = 0) results -> (0 < elapsed_days results)%Z ->
     sharpe_ratio m = None /\ cagr m = Some 0 /\ max_drawdown m = Finite 0)
  /\ ((elapsed_days results <= 0)%Z -> cagr m = None)
  /\ (volatility m = Some 0 -> sharpe_ratio m = None).
Proof.
  intros Hm. destruct results as [|[d0 r0] rest]; [discriminate|].
  injection Hm as <-.
  assert (elapsed_days ((d0, r0) :: rest)
          = List.last (map fst ((d0, r0) :: rest)) d0 - d0)%Z as Hel
    by reflexivity.
  revert Hel. generalize ((d0, r0) :: rest) as results. intros results Hel.
  unfold metrics_of. cbn [sharpe_ratio cagr max_drawdown volatility].
  split; [|split].
  - intros Hz Hpos.
    pose proof (elapsed_positive_two_rows _ Hpos) as Hlen.
    assert (Forall (fun x => x = 0) (map snd results)) as Hz'.
    { apply Forall_fmap. exact Hz. }
    apply all_eq_replicate in Hz'. rewrite length_map in Hz'.
    destruct (length results) as [|[|n]]; [lia|lia|].
    rewrite Hz', equity_curve_zero, last_replicate, max_drawdown_ones.
    split; [|split; [|reflexivity]].
    + unfold sharpe_of. rewrite std_zero. simpl.
      destruct (Req_dec_T (0 * sqrt 252) 0) as [_|Hne]; [reflexivity|].
      exfalso. apply Hne. ring.
    + unfold cagr_of.
      destruct (Rlt_dec 0 (n_years d0 (List.last (map fst results) d0)))
        as [_|Hn].
      * rewrite fpow_one. simpl. f_equal. ring.
      * exfalso. apply Hn. apply n_years_positive. lia.
  - intros Hle. unfold cagr_of.
    destruct (Rlt_dec 0 (n_years d0 (List.last (map fst results) d0)))
      as [Hn|_]; [|reflexivity].
    apply n_years_positive in Hn. lia.
  - intros Hv. unfold sharpe_of.
    destruct (std (map snd results)) as [sd|]; [|reflexivity].
    simpl in Hv. injection Hv as Hv. simpl.
    destruct (mean (map snd results)); [|reflexivity]. simpl.
    destruct (Req_dec_T (sd * sqrt 252) 0); [reflexivity|contradiction].
Qed.

Lemma metrics_undefined_cases_witness :
  exists m, calculate_performance_metrics flat_two_days = Some m
            /\ sharpe_ratio m = None /\ cagr m = Some 0
            /\ max_drawdown m = Finite 0.
Proof.
  eexists. split; [reflexivity|].
  apply (metrics_undefined_cases flat_two_days _ eq_refl).
  - repeat constructor.
  - reflexivity.
Defined.

(** C7 as stated fails at [flat_two_days]: zero returns over a span of one
    day, and CAGR is reported as the number 0. *)
Lemma flat_two_days_cagr_is_zero :
  exists m, calculate_performance_metrics flat_two_days = Some m
            /\ cagr m = Some 0.
Proof.
  eexists. split; [reflexivity|].
  unfold metrics_of. cbn [cagr]. unfold cagr_of.
  destruct (Rlt_dec 0 _) as [_|Hn].
  - change (List.last (equity_curve (map snd flat_two_days)) 1)
      with (1 * (1 + 0) * (1 + 0)).
    replace (1 * (1 + 0) * (1 + 0)) with 1 by ring.
    rewrite fpow_one. simpl. f_equal. ring.
  - exfalso. apply Hn. apply n_years_positive. reflexivity.
Qed.

(** *** The drawdown of a curve that stays positive *)

Lemma cumprod_from_pos acc l :
  0 < acc -> Forall (fun x => 0 < x) l ->
  Forall (fun x => 0 < x) (cumprod_from acc l).
Proof.
  intros Hacc Hl. revert acc Hacc.
  induction Hl as [|x l Hx _ IH]; intros acc Hacc; cbn [cumprod_from].
  - constructor.
  - assert (0 < acc * x) by now apply Rmult_lt_0_compat.
    constructor; [assumption|]. now apply IH.
Qed.

Lemma drawdown_cell_pos e m :
  0 < e -> e <= m -> exists x, drawdown_cell e m = Finite x /\ -1 < x <= 0.
Proof.
  intros He Hm. unfold drawdown_cell.
  destruct (Req_dec_T m 0) as [->|Hne]; [lra|].
  exists (e / m - 1). split; [reflexivity|].
  assert (0 < m) as Hm0 by lra.
  assert (0 < e / m) by now apply Rdiv_lt_0_compat.
  assert (e / m <= 1).
  { apply Rmult_le_reg_r with (r := m); [assumption|].
    unfold Rdiv. rewrite Rmult_assoc, Rinv_l by assumption. lra. }
  lra.
Qed.

Lemma drawdown_tail_bounds m l :
  0 < m -> Forall (fun x => 0 < x) l ->
  match foldr fmin NaN (zip_with drawdown_cell l (cummax_from m l)) with
  | Finite x => -1 < x <= 0
  | NaN => l = []
  | NegInf => False
  end.
Proof.
  intros Hm Hl. revert m Hm.
  induction Hl as [|e l He _ IH]; intros m Hm.
  - reflexivity.
  - cbn [cummax_from zip_with foldr].
    assert (0 < Rmax m e) as HM by (apply Rlt_le_trans with m; [lra|apply Rmax_l]).
    destruct (drawdown_cell_pos e (Rmax m e) He (Rmax_r _ _)) as (x & -> & Hx).
    specialize (IH _ HM).
    destruct (foldr fmin NaN _) as [y| |]; cbn [fmin].
    + unfold Rmin. destruct (Rle_dec x y); lra.
    + contradiction.
    + exact Hx.
Qed.

Lemma max_drawdown_bounds l :
  l <> [] -> Forall (fun x => 0 < x) l ->
  exists x, max_drawdown_of l = Finite x /\ -1 < x <= 0.
Proof.
  intros Hne Hl. destruct l as [|e l]; [congruence|].
  apply Forall_cons in Hl as [He Hl].
  unfold max_drawdown_of. cbn [cummax zip_with foldr].
  destruct (drawdown_cell_pos e e He (Rle_refl _)) as (x & -> & Hx).
  pose proof (drawdown_tail_bounds e l He Hl) as Ht.
  destruct (foldr fmin NaN _) as [y| |]; cbn [fmin].
  - eexists. split; [reflexivity|].
    unfold Rmin. destruct (Rle_dec x y); lra.
  - contradiction.
  - eexists. split; [reflexivity|exact Hx].
Qed.

Lemma equity_curve_pos rets :
  Forall (fun r => -1 < r) rets -> Forall (fun x => 0 < x) (equity_curve rets).
Proof.
  intros H. unfold equity_curve. apply cumprod_from_pos; [lra|].
  apply Forall_fmap. eapply Forall_impl; [exact H|]. cbn. intros; lra.
Qed.

Lemma equity_curve_nonempty rets : rets <> [] -> equity_curve rets <> [].
Proof. destruct rets; [congruence|discriminate]. Qed.

(** X8. When no day loses the whole capital (every return above -1), the
    maximum drawdown of a non-empty series is a number between -1 and 0:
    never NaN, never infinite, never a gain.  The bounds are closed: over
    the reals the drawdown stays above -1, which a float quotient
    [equity / rolling_max] below 2^-53 does not. *)
Theorem max_drawdown_in_range results m :
  calculate_performance_metrics results = Some m ->
  Forall (fun x => -1 < snd x) results ->
  exists x, max_drawdown m = Finite x /\ -1 <= x <= 0.
Proof.
  intros Hm Hall. destruct results as [|[d r] rest]; [discriminate|].
  injection Hm as <-.
  unfold metrics_of. cbn [max_drawdown].
  destruct (max_drawdown_bounds (equity_curve (map snd ((d, r) :: rest))))
    as (x & Hx & Hb).
  - apply equity_curve_nonempty. discriminate.
  - apply equity_curve_pos. apply Forall_fmap. exact Hall.
  - exists x. split; [exact Hx|lra].
Qed.

(** A day that loses half the capital and never recovers it: the drawdown
    is -1/2. *)
Lemma max_drawdown_in_range_witness :
  exists x, max_drawdown (metrics_of 0 gain_then_loss) = Finite x
            /\ -1 <= x <= 0.
Proof.
  apply (max_drawdown_in_range gain_then_loss _ eq_refl).
  repeat constructor; cbn; lra.
Defined.

Lemma gain_then_loss_drawdown :
  max_drawdown (metrics_of 0 gain_then_loss) = Finite (- (1 / 2)).
Proof.
  unfold metrics_of, gain_then_loss, max_drawdown_of, equity_curve.
  cbn [max_drawdown map snd cumprod_from cummax cummax_from zip_with foldr].
  assert (1 * (1 + 1) = 2) as -> by ring.
  assert (2 * (1 + - (1 / 2)) = 1) as -> by field.
  rewrite Rmax_left by lra.
  unfold drawdown_cell.
  destruct (Req_dec_T 2 0) as [|_]; [lra|].
  cbn [fmin]. f_equal.
  replace (2 / 2 - 1) with 0 by field.
  replace (1 / 2 - 1) with (- (1 / 2)) by field.
  apply Rmin_right. lra.
Qed.

(** *** A series with no losing day *)

Lemma drawdown_cell_same e : 0 < e -> drawdown_cell e e = Finite 0.
Proof.
  intros He. unfold drawdown_cell.
  destruct (Req_dec_T e 0); [lra|]. f_equal. field. lra.
Qed.

Lemma drawdown_rising acc fs :
  0 < acc -> Forall (fun f => 1 <= f) fs ->
  let l := cumprod_from acc fs in
  foldr fmin NaN (zip_with drawdown_cell l (cummax_from acc l))
  = match fs with [] => NaN | _ => Finite 0 end.
Proof.
  intros Hacc Hfs. revert acc Hacc.
  induction Hfs as [|f fs Hf Hfs IH]; intros acc Hacc; [reflexivity|].
  cbn [cumprod_from cummax_from zip_with foldr].
  assert (acc <= acc * f) as Hle.
  { rewrite <- (Rmult_1_r acc) at 1. apply Rmult_le_compat_l; lra. }
  rewrite Rmax_right by exact Hle.
  assert (0 < acc * f) as Hpos by lra.
  rewrite drawdown_cell_same by exact Hpos.
  cbv zeta in IH. rewrite (IH _ Hpos).
  destruct fs; cbn [fmin]; [reflexivity|].
  f_equal. apply Rmin_left. lra.
Qed.

Lemma max_drawdown_rising rets :
  rets <> [] -> Forall (fun r => 0 <= r) rets ->
  max_drawdown_of (equity_curve rets) = Finite 0.
Proof.
  intros Hne Hall. destruct rets as [|r rets]; [congruence|].
  apply Forall_cons in Hall as [Hr Hall].
  unfold max_drawdown_of, equity_curve.
  cbn [map cumprod_from cummax zip_with foldr].
  assert (0 < 1 * (1 + r)) as Hpos by lra.
  rewrite drawdown_cell_same by exact Hpos.
  pose proof (drawdown_rising (1 * (1 + r)) (map (fun r => 1 + r) rets) Hpos)
    as Hd.
  cbv zeta in Hd. rewrite Hd.
  - destruct rets; cbn [map fmin]; [reflexivity|].
    f_equal. apply Rmin_left. lra.
  - apply Forall_fmap. eapply Forall_impl; [exact Hall|]. cbn. intros; lra.
Qed.

(** X9. A series with no losing day has maximum drawdown 0, and its Calmar
    ratio is therefore not-a-number, whatever the CAGR. *)
Theorem no_losing_day_has_no_calmar results m :
  calculate_performance_metrics results = Some m ->
  Forall (fun x => 0 <= snd x) results ->
  max_drawdown m = Finite 0
  /\ calmar_of (cagr m) (max_drawdown m) = None.
Proof.
  intros Hm Hall. destruct results as [|[d r] rest]; [discriminate|].
  injection Hm as <-.
  assert (max_drawdown (metrics_of d ((d, r) :: rest)) = Finite 0) as H0.
  { unfold metrics_of. cbn [max_drawdown].
    apply max_drawdown_rising; [discriminate|].
    apply Forall_fmap. exact Hall. }
  split; [exact H0|]. rewrite H0. unfold calmar_of.
  destruct (Req_dec_T 0 0); [reflexivity|contradiction].
Qed.

Lemma no_losing_day_has_no_calmar_witness :
  max_drawdown (metrics_of 0 flat_two_days) = Finite 0
  /\ calmar_of (cagr (metrics_of 0 flat_two_days))
       (max_drawdown (metrics_of 0 flat_two_days)) = None.
Proof.
  apply (no_losing_day_has_no_calmar flat_two_days _ eq_refl).
  repeat constructor; cbn; lra.
Defined.

(** *** The sign of the annualised figures *)

Lemma Rpower_gt_1 e p : 0 < p -> 1 < e -> 1 < Rpower e p.
Proof.
  intros Hp He. unfold Rpower. rewrite <- exp_0. apply exp_increasing.
  apply Rmult_lt_0_compat; [exact Hp|].
  rewrite <- ln_1. apply ln_increasing; lra.
Qed.

Lemma Rpower_lt_1 e p : 0 < p -> 0 < e -> e < 1 -> Rpower e p < 1.
Proof.
  intros Hp H0 He. unfold Rpower. rewrite <- exp_0. apply exp_increasing.
  assert (ln e < 0) by (rewrite <- ln_1; apply ln_increasing; lra).
  assert (0 < p * - ln e) by (apply Rmult_lt_0_compat; lra).
  lra.
Qed.

Lemma Rpower_1_base p : Rpower 1 p = 1.
Proof. unfold Rpower. rewrite ln_1, Rmult_0_r. apply exp_0. Qed.

Lemma cagr_of_sign e years :
  0 < years ->
  match cagr_of e years with
  | Some c => 0 <= e /\ -1 <= c /\ (0 < c <-> 1 < e) /\ (c = 0 <-> e = 1)
  | None => e < 0
  end.
Proof.
  intros Hy. unfold cagr_of. destruct (Rlt_dec 0 years) as [_|]; [|lra].
  assert (0 < 1 / years) as Hp by (apply Rdiv_lt_0_compat; lra).
  unfold fpow. destruct (Rlt_dec 0 e) as [He|He]; cbn.
  - assert (0 < Rpower e (1 / years)) as Hpos by apply exp_pos.
    split; [lra|]. split; [lra|].
    destruct (Rtotal_order e 1) as [Hlt|[->|Hgt]].
    + pose proof (Rpower_lt_1 e _ Hp He Hlt). split; split; intros; lra.
    + rewrite Rpower_1_base. split; split; intros; lra.
    + pose proof (Rpower_gt_1 e _ Hp Hgt). split; split; intros; lra.
  - destruct (Req_dec_T e 0) as [->|Hne]; cbn.
    + split; [lra|]. split; [lra|]. split; split; intros; lra.
    + lra.
Qed.

(** X10. Over a positive span, CAGR is not-a-number exactly when the
    final equity is negative.  Otherwise it is never below -1 and never of
    the sign opposite to the total return: not negative after a gain, not
    positive after a loss, and 0 when the total return is 0.  The signs are
    weak: a float power may round a small gain to 1.0, or overflow, and
    never changes side. *)
Theorem cagr_has_sign_of_total_return results m :
  calculate_performance_metrics results = Some m ->
  (0 < elapsed_days results)%Z ->
  match cagr m with
  | Some c => -1 <= total_return m /\ -1 <= c
              /\ (0 < total_return m -> 0 <= c)
              /\ (total_return m < 0 -> c <= 0)
              /\ (total_return m = 0 -> c = 0)
  | None => total_return m < -1
  end.
Proof.
  intros Hm Hpos. destruct results as [|[d r] rest]; [discriminate|].
  injection Hm as <-.
  unfold metrics_of. cbn [cagr total_return].
  set (e := List.last (equity_curve (map snd ((d, r) :: rest))) 1).
  assert (0 < n_years d (List.last (map fst ((d, r) :: rest)) d)) as Hy.
  { apply n_years_positive. exact Hpos. }
  pose proof (cagr_of_sign e _ Hy) as H.
  destruct (cagr_of e _) as [c|].
  - destruct H as (H0 & H1 & H2 & H3).
    split; [lra|]. split; [lra|]. split; [|split].
    + intros Hgain. assert (0 < c) by (apply H2; lra). lra.
    + intros Hloss. destruct (Rle_dec c 0) as [|Hn]; [assumption|].
      assert (0 < c) as Hc by lra. apply H2 in Hc. lra.
    + intros Hflat. apply H3. lra.
  - lra.
Qed.

(** Doubling and then halving the capital over 400 days: the total return
    is 0 and so is CAGR. *)
Lemma cagr_has_sign_of_total_return_witness :
  match cagr (metrics_of 0 gain_then_loss) with
  | Some c => -1 <= total_return (metrics_of 0 gain_then_loss) /\ -1 <= c
              /\ (0 < total_return (metrics_of 0 gain_then_loss) -> 0 <= c)
              /\ (total_return (metrics_of 0 gain_then_loss) < 0 -> c <= 0)
              /\ (total_return (metrics_of 0 gain_then_loss) = 0 -> c = 0)
  | None => total_return (metrics_of 0 gain_then_loss) < -1
  end.
Proof.
  apply (cagr_has_sign_of_total_return gain_then_loss _ eq_refl).
  reflexivity.
Defined.

Lemma sqrt_252_pos : 0 < sqrt 252.
Proof. apply sqrt_lt_R0. lra. Qed.

Lemma std_nonneg l sd : std l = Some sd -> 0 <= sd.
Proof.
  unfold std. destruct l as [|x [|y l]]; try discriminate.
  intros [= <-]. apply sqrt_pos.
Qed.

(** X11. Whenever the Sharpe ratio is a number it has the sign of the mean
    daily return: positive, zero or negative with it. *)
Theorem sharpe_has_sign_of_mean rets s mu :
  sharpe_of rets = Some s -> mean rets = Some mu ->
  (0 < s <-> 0 < mu) /\ (s = 0 <-> mu = 0) /\ (s < 0 <-> mu < 0).
Proof.
  intros Hs Hmu. unfold sharpe_of in Hs.
  destruct (std rets) as [sd|] eqn:Hsd; [|discriminate].
  rewrite Hmu in Hs. cbn in Hs.
  destruct (Req_dec_T (sd * sqrt 252) 0) as [|Hne]; [discriminate|].
  injection Hs as <-.
  pose proof (std_nonneg _ _ Hsd) as Hsd0. pose proof sqrt_252_pos as H252.
  assert (0 <= sd * sqrt 252) by (apply Rmult_le_pos; lra).
  assert (0 < sd * sqrt 252) as Hden by lra.
  assert (0 < / (sd * sqrt 252)) as Hinv by now apply Rinv_0_lt_compat.
  unfold Rdiv. set (k := / (sd * sqrt 252)) in *. clearbody k.
  assert (mu * 252 * k = mu * (252 * k)) as -> by ring.
  assert (0 < 252 * k) as Hk by (apply Rmult_lt_0_compat; lra).
  set (q := 252 * k) in *. clearbody q.
  destruct (Rtotal_order mu 0) as [Hlt|[->|Hgt]].
  - assert (0 < - mu * q) by (apply Rmult_lt_0_compat; lra).
    repeat split; intros; lra.
  - rewrite Rmult_0_l. repeat split; intros; lra.
  - assert (0 < mu * q) by (apply Rmult_lt_0_compat; lra).
    repeat split; intros; lra.
Qed.

Lemma flat_then_gain_sharpe : exists s, sharpe_of flat_then_gain = Some s.
Proof.
  unfold sharpe_of, flat_then_gain, std, mean. cbn [mbind option_bind].
  destruct (Req_dec_T _ 0) as [H|H]; [exfalso|eexists; reflexivity].
  apply Rmult_integral in H as [H|H].
  - set (e := sumR _ / _) in H.
    assert (e = 1 / 2) as He by (unfold e; cbn; field).
    rewrite He in H. apply sqrt_eq_0 in H; lra.
  - pose proof sqrt_252_pos. lra.
Qed.

Lemma sharpe_has_sign_of_mean_witness :
  exists s mu, sharpe_of flat_then_gain = Some s
               /\ mean flat_then_gain = Some mu
               /\ (0 < s <-> 0 < mu).
Proof.
  destruct flat_then_gain_sharpe as [s Hs].
  exists s, (sumR flat_then_gain / INR (length flat_then_gain)).
  split; [exact Hs|]. split; [reflexivity|].
  apply (sharpe_has_sign_of_mean flat_then_gain s _ Hs eq_refl).
Defined.

(** *** Downside risk *)

Lemma negative_returns_neg rets :
  Forall (fun r => r < 0) (negative_returns rets).
Proof.
  unfold negative_returns. induction rets as [|r rets IH]; cbn.
  - constructor.
  - destruct (Rlt_dec r 0); [constructor; assumption|assumption].
Qed.

Lemma negative_returns_nonempty rets :
  negative_returns rets <> [] <-> Exists (fun r => r < 0) rets.
Proof.
  unfold negative_returns. induction rets as [|r rets IH]; cbn.
  - split; [congruence|]. intros H. inversion H.
  - destruct (Rlt_dec r 0) as [Hr|Hr].
    + split; [intros _; now left|discriminate].
    + rewrite IH. split; [now right|].
      intros H. inversion H; [contradiction|assumption].
Qed.

Lemma sum_squares_pos l :
  l <> [] -> Forall (fun r => r < 0) l -> 0 < sumR (map (fun r => r * r) l).
Proof.
  intros Hne Hl. induction Hl as [|r l Hr Hl IH]; [congruence|].
  cbn [map sumR foldr].
  assert (0 < r * r) by nra.
  destruct l as [|r' l'].
  - cbn. lra.
  - assert (0 < sumR (map (fun r => r * r) (r' :: l'))) by (apply IH; discriminate).
    unfold sumR in *. lra.
Qed.

Lemma INR_length_pos {A} (l : list A) : l <> [] -> 0 < INR (length l).
Proof.
  intros H. destruct l; [congruence|]. cbn [length]. apply lt_0_INR. lia.
Qed.

(** X12. The Sortino ratio is a number exactly when some day has a negative
    return; with no losing day it is not-a-number. *)
Theorem sortino_defined_iff_a_losing_day rets :
  is_Some (sortino_of rets) <-> Exists (fun r => r < 0) rets.
Proof.
  rewrite <- negative_returns_nonempty. unfold sortino_of, downside_deviation.
  pose proof (negative_returns_neg rets) as Hneg.
  assert (negative_returns rets <> [] -> rets <> []) as Hrets.
  { intros H ->. now apply H. }
  destruct (negative_returns rets) as [|x l] eqn:E.
  - cbn. split; [intros [? H]; discriminate|congruence].
  - split; [discriminate|]. intros _.
    destruct rets as [|r rets]; [exfalso; now apply Hrets|].
    unfold mean at 1. cbn [map mbind option_bind].
    set (sq := (fun r => r * r) x :: map (fun r => r * r) l).
    assert (0 < sumR sq / INR (length sq) * 252) as Hpos.
    { apply Rmult_lt_0_compat; [|lra]. apply Rdiv_lt_0_compat.
      - apply (sum_squares_pos (x :: l)); [discriminate|exact Hneg].
      - apply INR_length_pos. discriminate. }
    apply sqrt_lt_R0 in Hpos.
    change (mean sq) with (Some (sumR sq / INR (length sq))).
    cbn [mbind option_bind].
    destruct (Req_dec_T _ 0) as [H0|_]; [lra|]. eexists; reflexivity.
Qed.

(** *** The hit rate *)

Lemma hits_sum rets :
  let hits := map (fun r => if Rlt_dec 0 r then 1 else 0) rets in
  0 <= sumR hits <= INR (length rets)
  /\ (sumR hits = 0 <-> Forall (fun r => r <= 0) rets)
  /\ (sumR hits = INR (length rets) <-> Forall (fun r => 0 < r) rets).
Proof.
  cbv zeta. induction rets as [|r rets (Hb & Hz & Ho)].
  - cbn. split; [lra|]. split; split; intros; try constructor; reflexivity.
  - cbn [map length]. rewrite S_INR.
    change (sumR (?a :: ?l)) with (a + sumR l).
    rewrite !Forall_cons, <- Hz, <- Ho.
    set (t := sumR _) in *. clearbody t.
    set (n := INR _) in *. clearbody n.
    destruct (Rlt_dec 0 r) as [Hr|Hr];
      (split; [lra|]); split; split; intros; try split; lra.
Qed.

(** X13. The hit rate of a non-empty series lies between 0 and 1; it is 0
    exactly when no day has a positive return and 1 exactly when every day
    has one, so a flat day counts as a miss. *)
Theorem hit_rate_range rets :
  match hit_rate rets with
  | Some h => 0 <= h <= 1
              /\ (h = 0 <-> Forall (fun r => r <= 0) rets)
              /\ (h = 1 <-> Forall (fun r => 0 < r) rets)
  | None => rets = []
  end.
Proof.
  unfold hit_rate, mean.
  destruct rets as [|r rets]; [reflexivity|].
  destruct (hits_sum (r :: rets)) as (Hb & Hz & Ho). cbv zeta in *.
  set (hits := map _ (r :: rets)) in *.
  assert (length hits = length (r :: rets)) as Hl by apply length_map.
  change (match hits with [] => None | _ => Some (sumR hits / INR (length hits)) end)
    with (Some (sumR hits / INR (length hits))).
  rewrite Hl, <- Hz, <- Ho.
  assert (0 < INR (length (r :: rets))) as Hn
    by (apply INR_length_pos; discriminate).
  set (n := INR (length (r :: rets))) in *. clearbody n.
  set (t := sumR hits) in *. clearbody t.
  assert (t / n * n = t) as Hq by (field; lra).
  assert (0 <= t / n).
  { apply Rmult_le_reg_r with n; [lra|]. rewrite Hq. lra. }
  assert (t / n <= 1).
  { apply Rmult_le_reg_r with n; [lra|]. rewrite Hq. lra. }
  split; [lra|]. split; split; intros H1.
  - rewrite H1 in Hq. lra.
  - rewrite H1. unfold Rdiv. ring.
  - rewrite H1 in Hq. lra.
  - rewrite H1. field. lra.
Qed.

(** *** Against a benchmark *)

Lemma sumR_cons x l : sumR (x :: l) = x + sumR l.
Proof. reflexivity. Qed.

Lemma sumR_scale k l : sumR (map (Rmult k) l) = k * sumR l.
Proof.
  induction l as [|x l IH]; cbn [map]; rewrite ?sumR_cons, ?IH.
  - cbn. ring.
  - ring.
Qed.

Lemma scaled_products k mu l :
  sumR (zip_with (fun x y => (x - k * mu) * (y - mu)) (map (Rmult k) l) l)
  = k * sumR (map (fun y => (y - mu) * (y - mu)) l).
Proof.
  induction l as [|y l IH]; cbn [map zip_with]; rewrite ?sumR_cons, ?IH.
  - cbn. ring.
  - ring.
Qed.

Lemma var_single y : var [y] = Some 0.
Proof. unfold var. f_equal. cbn. field. Qed.

Lemma var_nonempty ys :
  ys <> [] ->
  var ys
  = Some (sumR (map (fun y => (y - sumR ys / INR (length ys))
                              * (y - sumR ys / INR (length ys))) ys)
          / INR (length ys)).
Proof. destruct ys; [congruence|reflexivity]. Qed.

Lemma cov_two xs ys :
  (2 <= length xs)%nat ->
  cov xs ys
  = Some (sumR (zip_with (fun x y => (x - sumR xs / INR (length xs))
                                     * (y - sumR ys / INR (length ys)))
                  xs ys)
          / (INR (length xs) - 1)).
Proof. destruct xs as [|x1 [|x2 xs]]; cbn [length]; [lia|lia|reflexivity]. Qed.

(** X14. A portfolio whose daily returns are [k] times the benchmark's is
    reported with beta [k * n / (n - 1)] over [n] days, not [k]: the
    covariance is divided by [n - 1] and the variance by [n]. *)
Theorem beta_of_scaled_benchmark k bench v :
  var bench = Some v -> v <> 0 ->
  beta_of (map (Rmult k) bench) bench
  = Some (k * (INR (length bench) / (INR (length bench) - 1))).
Proof.
  intros Hv Hne. unfold beta_of. rewrite Hv. cbn [mbind option_bind].
  destruct (Req_dec_T v 0) as [|_]; [contradiction|].
  assert (2 <= length bench)%nat as Hlen.
  { destruct bench as [|y1 [|y2 l]]; [discriminate| |cbn; lia].
    rewrite var_single in Hv. congruence. }
  rewrite var_nonempty in Hv by (intros ->; cbn in Hlen; lia).
  injection Hv as Hv.
  rewrite cov_two by (rewrite length_map; exact Hlen).
  rewrite length_map, sumR_scale.
  replace (k * sumR bench / INR (length bench))
    with (k * (sumR bench / INR (length bench)))
    by (unfold Rdiv; ring).
  rewrite scaled_products. cbn [mbind option_bind]. f_equal.
  set (ss := sumR (map _ bench)) in *. clearbody ss.
  assert (2 <= INR (length bench)) as Hn.
  { change 2 with (INR 2). apply le_INR. exact Hlen. }
  set (n := INR (length bench)) in *. clearbody n.
  assert (ss <> 0).
  { intros ->. apply Hne. rewrite <- Hv. unfold Rdiv. ring. }
  rewrite <- Hv. field. repeat split; lra.
Qed.

Lemma beta_of_scaled_benchmark_witness :
  beta_of (map (Rmult 1) flat_then_gain) flat_then_gain
  = Some (1 * (INR (length flat_then_gain)
               / (INR (length flat_then_gain) - 1))).
Proof.
  apply (beta_of_scaled_benchmark 1 flat_then_gain (1 / 4)).
  - unfold var, flat_then_gain. f_equal. cbn. field.
  - lra.
Defined.

Lemma zip_minus_self l : zip_with Rminus l l = replicate (length l) 0.
Proof.
  induction l as [|x l IH]; [reflexivity|].
  cbn [zip_with length replicate]. rewrite IH. f_equal. ring.
Qed.

(** X15. The information ratio of a portfolio that reproduces the benchmark
    day by day is not-a-number: the excess return has no spread. *)
Theorem information_ratio_of_benchmark_itself rets :
  information_ratio rets rets = None.
Proof.
  unfold information_ratio. rewrite zip_minus_self.
  destruct (length rets) as [|[|n]]; [reflexivity|reflexivity|].
  rewrite std_zero. cbn [mbind option_bind].
  destruct (Req_dec_T 0 0); [reflexivity|contradiction].
Qed.

End MetricsFacts.

(** ** The prediction engine *)

Module WalkForwardFacts.
Import WalkForward.

Section WalkFacts.
Context {V Label Model Prob : Type} `{EqDecision Label}.
Context {clf : Classifier V Label Model Prob} {wfm : WalkForwardModel}
        {cfg : MomentumConfig Prob}.

Implicit Types (rows ds : list (@raw_row V Label)) (r : @raw_row V Label).
Implicit Types (clean cl : list (@clean_row V Label)).
Implicit Types (row a b c : @clean_row V Label).
Implicit Types (st : @wf_state Model Prob).

(** *** The loop, step by step *)

Lemma walk_upto_start clean k :
  (k <= min_train_window)%nat -> walk_upto clean k = wf_init.
Proof.
  intros Hk. unfold walk_upto.
  replace (k - min_train_window)%nat with 0%nat by lia. reflexivity.
Qed.

Lemma walk_upto_S clean k :
  (min_train_window <= k)%nat ->
  walk_upto clean (S k) = walk_step clean (walk_upto clean k) k.
Proof.
  intros Hk. unfold walk_upto.
  replace (S k - min_train_window)%nat with (S (k - min_train_window)) by lia.
  rewrite seq_S, foldl_app. simpl.
  now replace (min_train_window + (k - min_train_window))%nat with k by lia.
Qed.

Lemma walk_step_agree cl1 cl2 st i :
  take i cl1 = take i cl2 ->
  row_key <$> cl1 !! i = row_key <$> cl2 !! i ->
  walk_step cl1 st i = walk_step cl2 st i.
Proof.
  intros Ht Hr. unfold walk_step, history. rewrite Ht.
  destruct (length _ <? min_train_window)%nat; [reflexivity|].
  assert (forall st', 
    match cl1 !! i, model st' with
    | Some row, Some m =>
        match predict_proba m (c_feats row) with
        | Some p =>
            {| last_retrain_day := last_retrain_day st'; model := model st';
               asset_predictions := <[c_date row := p]> (asset_predictions st') |}
        | None => st'
        end
    | _, _ => st'
    end =
    match cl2 !! i, model st' with
    | Some row, Some m =>
        match predict_proba m (c_feats row) with
        | Some p =>
            {| last_retrain_day := last_retrain_day st'; model := model st';
               asset_predictions := <[c_date row := p]> (asset_predictions st') |}
        | None => st'
        end
    | _, _ => st'
    end) as Hrow.
  { intros st'. destruct (cl1 !! i) as [a|], (cl2 !! i) as [b|];
      simpl in Hr; try discriminate; [|reflexivity].
    injection Hr as Hd Hf. unfold row_key in *. now rewrite Hd, Hf. }
  destruct (retrain_due st i); [destruct (nunique _ <? 2)%nat|];
    try reflexivity; apply Hrow.
Qed.

Lemma walk_upto_agree cl1 cl2 k :
  take k cl1 = take k cl2 -> walk_upto cl1 k = walk_upto cl2 k.
Proof.
  induction k as [|k IH]; intros Ht.
  - now rewrite !walk_upto_start by lia.
  - assert (take k cl1 = take k cl2) as Hk.
    { rewrite <- (Nat.min_l k (S k)) by lia.
      rewrite <- !take_take. now rewrite Ht. }
    destruct (decide (min_train_window <= k)%nat) as [Hm|Hm].
    + rewrite !walk_upto_S by exact Hm. rewrite (IH Hk).
      apply walk_step_agree; [exact Hk|].
      assert (forall c : list (@clean_row V Label),
                c !! k = take (S k) c !! k) as Hl.
      { intros c. rewrite lookup_take. destruct (decide (k < S k)%nat); [reflexivity|lia]. }
      now rewrite (Hl cl1), (Hl cl2), Ht.
    + now rewrite !walk_upto_start by lia.
Qed.

(** A pass writes at the date of its own row and nowhere else. *)
Lemma walk_step_other clean st i d :
  (forall row, clean !! i = Some row -> c_date row <> d) ->
  asset_predictions (walk_step clean st i) !! d = asset_predictions st !! d.
Proof.
  intros Hd. unfold walk_step.
  destruct (length _ <? min_train_window)%nat; [reflexivity|].
  set (trained := if retrain_due st i then _ else _).
  assert (forall st', trained = Some st' ->
            asset_predictions st' = asset_predictions st) as Hp.
  { subst trained. intros st'.
    destruct (retrain_due st i); [destruct (nunique _ <? 2)%nat|];
      intros [= <-]; reflexivity. }
  destruct trained as [st'|]; [|reflexivity].
  specialize (Hp st' eq_refl).
  destruct (clean !! i) as [row|] eqn:Er; [|now rewrite Hp].
  destruct (model st') as [m|]; [|now rewrite Hp].
  destruct (predict_proba m (c_feats row)); [|now rewrite Hp].
  simpl. rewrite lookup_insert_ne; [now rewrite Hp|]. now apply Hd.
Qed.

(** Every prediction in the series was written by a pass of the loop, at
    the date of that pass's row. *)
Lemma walk_upto_keys clean k d p :
  asset_predictions (walk_upto clean k) !! d = Some p ->
  exists j row, (min_train_window <= j < k)%nat
                /\ clean !! j = Some row /\ c_date row = d.
Proof.
  induction k as [|k IH]; intros H.
  - rewrite walk_upto_start in H by lia. simpl in H.
    rewrite lookup_empty in H. discriminate.
  - destruct (decide (min_train_window <= k)%nat) as [Hm|Hm].
    + rewrite walk_upto_S in H by exact Hm.
      destruct (clean !! k) as [row|] eqn:Er.
      * destruct (decide (c_date row = d)) as [Hd|Hd].
        { exists k, row. repeat split; [lia|lia|exact Er|exact Hd]. }
        rewrite walk_step_other in H.
        -- destruct (IH H) as (j & r & Hj & Hr & Hdj).
           exists j, r. repeat split; [lia|lia|exact Hr|exact Hdj].
        -- intros row' Hr'. rewrite Er in Hr'. now injection Hr' as <-.
      * rewrite walk_step_other in H by (intros row' Hr'; rewrite Er in Hr'; discriminate).
        destruct (IH H) as (j & r & Hj & Hr & Hdj).
        exists j, r. repeat split; [lia|lia|exact Hr|exact Hdj].
    + rewrite walk_upto_start in H by lia. simpl in H.
      rewrite lookup_empty in H. discriminate.
Qed.

(** Once the loop is past row [i], the entry at that row's date is final. *)
Lemma walk_upto_stable clean i row k :
  NoDup (map c_date clean) -> clean !! i = Some row -> (S i <= k)%nat ->
  asset_predictions (walk_upto clean k) !! c_date row
  = asset_predictions (walk_upto clean (S i)) !! c_date row.
Proof.
  intros Hnd Hi Hk. induction k as [|k IH]; [lia|].
  destruct (decide (k = i)) as [->|Hne]; [reflexivity|].
  assert (S i <= k)%nat as Hk' by lia. specialize (IH Hk').
  destruct (decide (min_train_window <= k)%nat) as [Hm|Hm].
  - rewrite walk_upto_S by exact Hm. rewrite walk_step_other; [exact IH|].
    intros row' Hr' Heq. apply Hne.
    apply (NoDup_lookup (map c_date clean) k i (c_date row) Hnd).
    + change (map c_date clean) with (c_date <$> clean).
      rewrite list_lookup_fmap, Hr'. simpl. now f_equal.
    + change (map c_date clean) with (c_date <$> clean).
      rewrite list_lookup_fmap, Hi. reflexivity.
  - rewrite walk_upto_start by lia. rewrite walk_upto_start in IH by lia.
    exact IH.
Qed.

(** No look-ahead on the cleaned table: the prediction written for row [i]
    is a function of the rows before [i] and of the features of row [i]. *)
Lemma walk_prefix cl1 cl2 i a b :
  NoDup (map c_date cl1) -> NoDup (map c_date cl2) ->
  take i cl1 = take i cl2 ->
  cl1 !! i = Some a -> cl2 !! i = Some b -> row_key a = row_key b ->
  asset_predictions (walk cl1) !! c_date a
  = asset_predictions (walk cl2) !! c_date a.
Proof.
  intros Hn1 Hn2 Ht Ha Hb Hk. unfold walk.
  assert (c_date a = c_date b) as Hd by (now injection Hk).
  rewrite (walk_upto_stable cl1 i a) by
    (auto; apply lookup_lt_Some in Ha; lia).
  rewrite Hd at 2.
  rewrite (walk_upto_stable cl2 i b) by
    (auto; apply lookup_lt_Some in Hb; lia).
  rewrite <- Hd.
  destruct (decide (min_train_window <= i)%nat) as [Hm|Hm].
  - rewrite !walk_upto_S by exact Hm.
    rewrite (walk_upto_agree cl1 cl2 i Ht).
    rewrite (walk_step_agree cl1 cl2); [reflexivity|exact Ht|].
    now rewrite Ha, Hb; simpl; f_equal.
  - now rewrite !walk_upto_start by lia.
Qed.

(** *** From the dataset to the cleaned table *)

Lemma clean_from_app mask d rows1 rows2 :
  clean_from mask d (rows1 ++ rows2)
  = clean_from mask d rows1 ++ clean_from mask (d + length rows1) rows2.
Proof.
  revert d. induction rows1 as [|r rows1 IH]; intros d; simpl.
  - now rewrite Nat.add_0_r.
  - rewrite IH. replace (S d + length rows1)%nat with (d + S (length rows1))%nat by lia.
    destruct (clean_of mask d r); reflexivity.
Qed.

Lemma clean_of_date mask d r c : clean_of mask d r = Some c -> c_date c = d.
Proof.
  unfold clean_of. destruct (all_present _); simpl; [|discriminate].
  destruct (r_target r); simpl; [|discriminate]. now intros [= <-].
Qed.

Lemma clean_from_dates mask d rows :
  Forall (fun c => (d <= c_date c < d + length rows)%nat)
         (clean_from mask d rows).
Proof.
  revert d. induction rows as [|r rows IH]; intros d; simpl; [constructor|].
  assert (Forall (fun c => (d <= c_date c < d + S (length rows))%nat)
                 (clean_from mask (S d) rows)) as Hrest.
  { eapply Forall_impl; [apply IH|]. simpl. intros c Hc. lia. }
  destruct (clean_of mask d r) as [c|] eqn:E; [|exact Hrest].
  constructor; [|exact Hrest]. apply clean_of_date in E. lia.
Qed.

Lemma clean_from_NoDup mask d rows :
  NoDup (map c_date (clean_from mask d rows)).
Proof.
  revert d. induction rows as [|r rows IH]; intros d; simpl; [constructor|].
  destruct (clean_of mask d r) as [c|] eqn:E; [|apply IH].
  simpl. apply NoDup_cons. split; [|apply IH].
  intros Hin. apply list_elem_of_fmap in Hin as (c' & Hd & Hc').
  pose proof (clean_from_dates mask (S d) rows) as Hf.
  rewrite Forall_forall in Hf. apply Hf in Hc'.
  apply clean_of_date in E. lia.
Qed.

Lemma clean_of_agree mask d r1 r2 :
  r_feats r1 = r_feats r2 ->
  (is_Some (r_target r1) <-> is_Some (r_target r2)) ->
  row_key <$> clean_of mask d r1 = row_key <$> clean_of mask d r2.
Proof.
  intros Hf Ht. unfold clean_of. rewrite Hf.
  destruct (all_present _); simpl; [|reflexivity].
  destruct (r_target r1) as [y1|], (r_target r2) as [y2|]; simpl;
    try reflexivity.
  - destruct Ht as [Ht _]. destruct (Ht (mk_is_Some _ _ eq_refl)); discriminate.
  - destruct Ht as [_ Ht]. destruct (Ht (mk_is_Some _ _ eq_refl)); discriminate.
Qed.

(** With too few clean rows the loop has no pass, so [emitted] is the
    series of the walk in every case that is not skipped. *)
Lemma emitted_walk rows :
  emitted (Some rows)
  = if forallb negb (kept_columns rows) then ∅
    else asset_predictions (walk (clean_data rows)).
Proof.
  unfold emitted, walk_asset.
  destruct (forallb negb (kept_columns rows)); [reflexivity|].
  destruct (length (clean_data rows) <? min_train_window)%nat eqn:E;
    [|reflexivity].
  apply Nat.ltb_lt in E. unfold walk.
  rewrite walk_upto_start by lia. reflexivity.
Qed.

Lemma prediction_at_emitted prices rows d :
  prediction_at prices (Some rows) d
  = if forallb negb (kept_columns rows) then None
    else (fun fb => default fb (emitted (Some rows) !! d))
           <$> build_fallback_series (length rows) prices !! d.
Proof.
  unfold prediction_at, generate_predictions_asset, emitted, walk_asset.
  cbn [default from_option id].
  destruct (forallb negb (kept_columns rows)); [reflexivity|].
  destruct (length (clean_data rows) <? min_train_window)%nat; simpl.
  - rewrite lookup_empty.
    now destruct (build_fallback_series (length rows) prices !! d).
  - now rewrite list_lookup_imap.
Qed.

(** The cleaned table around date [D]: the clean rows of the dates before
    [D], then row [D] if it is clean, then later dates. *)
Lemma clean_split mask rows D r :
  rows !! D = Some r ->
  clean_from mask 0 rows
  = clean_from mask 0 (take D rows)
    ++ match clean_of mask D r with
       | Some c => c :: clean_from mask (S D) (drop (S D) rows)
       | None => clean_from mask (S D) (drop (S D) rows)
       end.
Proof.
  intros Hr. rewrite <- (take_drop_middle rows D r Hr) at 1.
  rewrite clean_from_app. simpl.
  rewrite length_take_le by (apply lookup_lt_Some in Hr; lia).
  destruct (clean_of mask D r); reflexivity.
Qed.

Lemma no_clean_row_no_prediction mask rows D r :
  rows !! D = Some r -> clean_of mask D r = None ->
  asset_predictions (walk (clean_from mask 0 rows)) !! D = None.
Proof.
  intros Hr Hc.
  destruct (asset_predictions _ !! D) as [p|] eqn:E; [|reflexivity].
  exfalso. apply walk_upto_keys in E as (j & row & _ & Hj & Hd).
  rewrite (clean_split mask rows D r Hr), Hc in Hj.
  apply list_elem_of_lookup_2, elem_of_app in Hj as [Hj|Hj].
  - pose proof (clean_from_dates mask 0 (take D rows)) as Hf.
    rewrite Forall_forall in Hf. apply Hf in Hj.
    rewrite length_take in Hj. lia.
  - pose proof (clean_from_dates mask (S D) (drop (S D) rows)) as Hf.
    rewrite Forall_forall in Hf. apply Hf in Hj. lia.
Qed.

Lemma emitted_agree ds1 ds2 D r1 r2 :
  take D ds1 = take D ds2 -> ds1 !! D = Some r1 -> ds2 !! D = Some r2 ->
  r_feats r1 = r_feats r2 ->
  (is_Some (r_target r1) <-> is_Some (r_target r2)) ->
  kept_columns ds1 = kept_columns ds2 ->
  emitted (Some ds1) !! D = emitted (Some ds2) !! D.
Proof.
  intros Ht H1 H2 Hf Hy Hm. rewrite !emitted_walk, <- Hm.
  destruct (forallb negb (kept_columns ds1)); [reflexivity|].
  unfold clean_data. rewrite <- Hm. set (mask := kept_columns ds1).
  pose proof (clean_of_agree mask D r1 r2 Hf Hy) as Hk.
  destruct (clean_of mask D r1) as [a|] eqn:Ea,
           (clean_of mask D r2) as [b|] eqn:Eb; simpl in Hk;
    try discriminate.
  - injection Hk as Hkd Hkf.
    pose proof (clean_of_date _ _ _ _ Ea) as Hda.
    set (i := length (clean_from mask 0 (take D ds1))).
    assert (clean_from mask 0 ds1 !! i = Some a) as Hia.
    { rewrite (clean_split mask ds1 D r1 H1), Ea. now apply list_lookup_middle. }
    assert (clean_from mask 0 ds2 !! i = Some b) as Hib.
    { rewrite (clean_split mask ds2 D r2 H2), Eb, <- Ht.
      now apply list_lookup_middle. }
    assert (take i (clean_from mask 0 ds1) = take i (clean_from mask 0 ds2)) as Hti.
    { rewrite (clean_split mask ds1 D r1 H1), (clean_split mask ds2 D r2 H2), <- Ht.
      subst i. now rewrite !take_app_length. }
    rewrite <- Hda.
    apply (walk_prefix _ _ i a b); auto using clean_from_NoDup.
    unfold row_key. now rewrite Hkd, Hkf.
  - rewrite (no_clean_row_no_prediction mask ds1 D r1 H1 Ea).
    now rewrite (no_clean_row_no_prediction mask ds2 D r2 H2 Eb).
Qed.

(** *** The fallback series looks no further than its own date *)

Lemma pad_from_take last col k :
  take k (pad_from last col) = pad_from last (take k col).
Proof.
  revert last k. induction col as [|c col IH]; intros last [|k]; simpl;
    try reflexivity.
  f_equal. apply IH.
Qed.

Lemma pad_from_lookup_prefix col1 col2 D t :
  take (S D) col1 = take (S D) col2 -> (t <= D)%nat ->
  pad_from None col1 !! t = pad_from None col2 !! t.
Proof.
  intros Ht Hle.
  assert (forall col : list (option Q),
            pad_from None col !! t = pad_from None (take (S D) col) !! t) as Hl.
  { intros col. rewrite <- pad_from_take, lookup_take.
    destruct (decide (t < S D)%nat); [reflexivity|lia]. }
  now rewrite (Hl col1), (Hl col2), Ht.
Qed.

Lemma build_fallback_series_prefix n1 n2 col1 col2 D :
  take (S D) col1 = take (S D) col2 ->
  build_fallback_series n1 (Some col1) !! D
  = build_fallback_series n2 (Some col2) !! D.
Proof.
  intros Ht. unfold build_fallback_series. rewrite !list_lookup_imap.
  assert (col1 !! D = col2 !! D) as Hc.
  { assert (forall col : list (option Q), col !! D = take (S D) col !! D) as Hl.
    { intros col. rewrite lookup_take.
      destruct (decide (D < S D)%nat); [reflexivity|lia]. }
    now rewrite (Hl col1), (Hl col2), Ht. }
  rewrite Hc.
  rewrite (pad_from_lookup_prefix col1 col2 D D Ht) by lia.
  destruct (lookback <=? D)%nat; [|reflexivity].
  rewrite (pad_from_lookup_prefix col1 col2 D (D - lookback) Ht) by lia.
  reflexivity.
Qed.

(** *** Main results on the walk *)

(** C1, as the code has it.  Take two datasets that agree on every feature
    and label value at the dates strictly before [D] and on the feature
    values at [D], in which the label at [D] is present or missing alike and
    the same feature columns survive the all-missing drop.  Then the model
    writes the same prediction at [D] in both (or none in both), and the
    filled result at [D] is the same when the momentum fallbacks of the two
    price columns agree there (they do when the prices agree through [D]).
    The label at [D] and every value after [D] are otherwise free. *)
Theorem no_lookahead ds1 ds2 D r1 r2 :
  take D ds1 = take D ds2 -> ds1 !! D = Some r1 -> ds2 !! D = Some r2 ->
  r_feats r1 = r_feats r2 ->
  (is_Some (r_target r1) <-> is_Some (r_target r2)) ->
  kept_columns ds1 = kept_columns ds2 ->
  emitted (Some ds1) !! D = emitted (Some ds2) !! D
  /\ forall prices1 prices2,
       build_fallback_series (length ds1) prices1 !! D
       = build_fallback_series (length ds2) prices2 !! D ->
       prediction_at prices1 (Some ds1) D = prediction_at prices2 (Some ds2) D.
Proof.
  intros Ht H1 H2 Hf Hy Hm.
  pose proof (emitted_agree ds1 ds2 D r1 r2 Ht H1 H2 Hf Hy Hm) as He.
  split; [exact He|].
  intros prices1 prices2 Hfb.
  rewrite !prediction_at_emitted, <- Hm, He, Hfb. reflexivity.
Qed.

(** C6, as the code has it.  When a retrain is due at index [i] and the
    training window holds a single class of label, the whole pass is
    skipped: the model and the last retrain index stay as they were, and no
    prediction is written for the date of row [i]. *)
Theorem degenerate_window_skips_pass rows i row :
  clean_data rows !! i = Some row ->
  (min_train_window <= i)%nat ->
  (min_train_window <= length (history (clean_data rows) i))%nat ->
  retrain_due (walk_upto (clean_data rows) i) i = true ->
  (nunique (history (clean_data rows) i) < 2)%nat ->
  walk_upto (clean_data rows) (S i) = walk_upto (clean_data rows) i
  /\ emitted (Some rows) !! c_date row = None.
Proof.
  intros Hi Hm Hh Hdue Hn. set (clean := clean_data rows) in *.
  assert (walk_upto clean (S i) = walk_upto clean i) as Hskip.
  { rewrite walk_upto_S by exact Hm. unfold walk_step.
    apply Nat.ltb_ge in Hh. rewrite Hh, Hdue.
    apply Nat.ltb_lt in Hn. now rewrite Hn. }
  split; [exact Hskip|].
  rewrite emitted_walk.
  destruct (forallb negb (kept_columns rows)); [apply lookup_empty|].
  fold clean. unfold walk.
  assert (NoDup (map c_date clean)) as Hnd by apply clean_from_NoDup.
  rewrite (walk_upto_stable clean i row) by
    (auto; apply lookup_lt_Some in Hi; lia).
  rewrite Hskip.
  destruct (asset_predictions (walk_upto clean i) !! c_date row) as [p|] eqn:E;
    [|reflexivity].
  exfalso. apply walk_upto_keys in E as (j & row' & Hj & Hr' & Hd).
  assert (j = i); [|lia].
  apply (NoDup_lookup (map c_date clean) j i (c_date row) Hnd).
  - change (map c_date clean) with (c_date <$> clean).
    rewrite list_lookup_fmap, Hr'. simpl. now f_equal.
  - change (map c_date clean) with (c_date <$> clean).
    rewrite list_lookup_fmap, Hi. reflexivity.
Qed.

(** *** Where a prediction comes from *)

Lemma walk_step_spec clean st i :
  walk_step clean st i = st
  \/ exists st',
       ((retrain_due st i = false /\ st' = st)
        \/ ((min_train_window <= length (history clean i))%nat
            /\ (2 <= nunique (history clean i))%nat
            /\ st' = {| last_retrain_day := Z.of_nat i;
                        model := Some (fit (training_set (history clean i)));
                        asset_predictions := asset_predictions st |}))
       /\ (walk_step clean st i = st'
           \/ exists row m p,
                clean !! i = Some row /\ model st' = Some m
                /\ predict_proba m (c_feats row) = Some p
                /\ walk_step clean st i
                   = {| last_retrain_day := last_retrain_day st';
                        model := model st';
                        asset_predictions :=
                          <[c_date row := p]> (asset_predictions st') |}).
Proof.
  unfold walk_step.
  destruct (length (history clean i) <? min_train_window)%nat eqn:El;
    [now left|].
  apply Nat.ltb_ge in El.
  set (trained := if retrain_due st i then _ else _).
  assert (trained = None
          \/ exists st', trained = Some st'
             /\ ((retrain_due st i = false /\ st' = st)
                 \/ ((min_train_window <= length (history clean i))%nat
                     /\ (2 <= nunique (history clean i))%nat
                     /\ st' = {| last_retrain_day := Z.of_nat i;
                                 model := Some (fit (training_set (history clean i)));
                                 asset_predictions := asset_predictions st |})))
    as [->|(st' & -> & Hst')].
  { subst trained. destruct (retrain_due st i).
    - destruct (nunique (history clean i) <? 2)%nat eqn:En; [now left|].
      apply Nat.ltb_ge in En. right. eexists. split; [reflexivity|].
      right. repeat split; assumption.
    - right. exists st. split; [reflexivity|]. now left. }
  - now left.
  - right. exists st'. split; [exact Hst'|].
    destruct (clean !! i) as [row|]; [|now left].
    destruct (model st') as [m|]; [|now left].
    destruct (predict_proba m (c_feats row)) as [p|] eqn:Ep; [|now left].
    right. exists row, m, p. repeat split. exact Ep.
Qed.

Lemma retrain_due_false st i :
  retrain_due st i = false ->
  (Z.of_nat i < last_retrain_day st + Z.of_nat retrain_every)%Z
  /\ is_Some (model st).
Proof.
  unfold retrain_due. intros H.
  apply Bool.orb_false_iff in H as [H Hm].
  apply Bool.orb_false_iff in H as [_ Hl].
  apply Z.leb_gt in Hl. split; [exact Hl|].
  destruct (model st); [eexists; reflexivity|discriminate].
Qed.

(** The model the loop holds was fitted at the pass [last_retrain_day]
    names. *)
Lemma walk_upto_model clean k :
  match model (walk_upto clean k) with
  | None => True
  | Some m => exists j, last_retrain_day (walk_upto clean k) = Z.of_nat j
                        /\ (j < k)%nat /\ fitted_at clean j m
  end.
Proof.
  induction k as [|k IH].
  - rewrite walk_upto_start by lia. exact I.
  - destruct (decide (min_train_window <= k)%nat) as [Hm|Hm];
      [|rewrite walk_upto_start by lia; exact I].
    rewrite walk_upto_S by exact Hm.
    set (st := walk_upto clean k) in *.
    assert (forall st', 
              ((retrain_due st k = false /\ st' = st)
               \/ ((min_train_window <= length (history clean k))%nat
                   /\ (2 <= nunique (history clean k))%nat
                   /\ st' = {| last_retrain_day := Z.of_nat k;
                               model := Some (fit (training_set (history clean k)));
                               asset_predictions := asset_predictions st |})) ->
              match model st' with
              | None => True
              | Some m => exists j, last_retrain_day st' = Z.of_nat j
                                    /\ (j < S k)%nat /\ fitted_at clean j m
              end) as Hst'.
    { intros st' [[_ ->]|(Hl & Hn & ->)].
      - destruct (model st) as [m|]; [|exact I].
        destruct IH as (j & Hj & Hlt & Hf).
        exists j. split; [exact Hj|]. split; [lia|exact Hf].
      - cbn. exists k. split; [reflexivity|]. split; [lia|].
        split; [exact Hm|]. split; [exact Hl|]. split; [exact Hn|reflexivity]. }
    destruct (walk_step_spec clean st k) as [->|(st' & Hc & Hw)].
    + destruct (model st) as [m|]; [|exact I].
      destruct IH as (j & Hj & Hlt & Hf).
        exists j. split; [exact Hj|]. split; [lia|exact Hf].
    + specialize (Hst' st' Hc).
      destruct Hw as [->|(row & m & p & _ & _ & _ & ->)]; exact Hst'.
Qed.

Lemma walk_upto_provenance clean k d p :
  asset_predictions (walk_upto clean k) !! d = Some p ->
  predicted_by clean d p.
Proof.
  induction k as [|k IH]; intros H.
  - rewrite walk_upto_start in H by lia. cbn in H.
    rewrite lookup_empty in H. discriminate.
  - destruct (decide (min_train_window <= k)%nat) as [Hm|Hm].
    2:{ rewrite walk_upto_start in H by lia. cbn in H.
        rewrite lookup_empty in H. discriminate. }
    rewrite walk_upto_S in H by exact Hm.
    pose proof (walk_upto_model clean k) as Hmod.
    set (st := walk_upto clean k) in *.
    destruct (walk_step_spec clean st k) as [Hs|(st' & Hc & Hw)].
    { rewrite Hs in H. now apply IH. }
    assert (asset_predictions st' = asset_predictions st) as Hp.
    { destruct Hc as [[_ ->]|(_ & _ & ->)]; reflexivity. }
    destruct Hw as [Hs|(row & m & q & Hrow & Hm' & Hq & Hs)].
    { rewrite Hs, Hp in H. now apply IH. }
    rewrite Hs in H. cbn in H. rewrite Hp in H.
    destruct (decide (c_date row = d)) as [Hd|Hd].
    2:{ rewrite lookup_insert_ne in H by exact Hd. now apply IH. }
    subst d. rewrite lookup_insert_eq in H. injection H as <-.
    destruct Hc as [[Hdue ->]|(Hl & Hn & ->)].
    + rewrite Hm' in Hmod. destruct Hmod as (j & Hj & Hlt & Hf).
      apply retrain_due_false in Hdue as [Hdue _]. rewrite Hj in Hdue.
      exists k, row, j, m. split; [exact Hrow|]. split; [reflexivity|].
      split; [lia|]. split; [right; lia|]. split; [exact Hf|exact Hq].
    + cbn in Hm'. injection Hm' as <-.
      exists k, row, k, (fit (training_set (history clean k))).
      split; [exact Hrow|]. split; [reflexivity|].
      split; [lia|]. split; [now left|]. split; [|exact Hq].
      split; [exact Hm|]. split; [exact Hl|]. split; [exact Hn|reflexivity].
Qed.

Lemma clean_from_index mask d rows i row :
  clean_from mask d rows !! i = Some row -> (d + i <= c_date row)%nat.
Proof.
  revert d i. induction rows as [|r rows IH]; intros d i H; [discriminate|].
  cbn [clean_from] in H.
  destruct (clean_of mask d r) as [c|] eqn:Ec.
  - destruct i as [|i]; cbn in H.
    + injection H as <-. apply clean_of_date in Ec. lia.
    + apply IH in H. lia.
  - apply IH in H. lia.
Qed.

(** X16. Every probability the model writes for a date comes from a model
    fitted at a pass no later than that date's own, on a window of at least
    [min_train_window] rows holding two classes, and either fitted at that
    very pass or fewer than [retrain_every] passes before; no date among the
    first [min_train_window] of the index gets one. *)
Theorem prediction_provenance rows d p :
  emitted (Some rows) !! d = Some p ->
  predicted_by (clean_data rows) d p /\ (min_train_window <= d)%nat.
Proof.
  intros H. rewrite emitted_walk in H.
  destruct (forallb negb (kept_columns rows));
    [rewrite lookup_empty in H; discriminate|].
  apply walk_upto_provenance in H. split; [exact H|].
  destruct H as (i & row & j & m & Hrow & <- & Hji & _ & (Hj & _) & _).
  apply clean_from_index in Hrow. lia.
Qed.

(** *** Dates the model leaves to the fallback *)

Lemma emitted_warm_up rows d :
  (d < min_train_window)%nat -> emitted (Some rows) !! d = None.
Proof.
  intros Hd. rewrite emitted_walk.
  destruct (forallb negb (kept_columns rows)); [apply lookup_empty|].
  destruct (asset_predictions (walk (clean_data rows)) !! d) as [p|] eqn:E;
    [|reflexivity].
  apply walk_upto_keys in E as (j & row & Hj & Hrow & <-).
  apply clean_from_index in Hrow. lia.
Qed.

(** X17. On the first [min_train_window] dates of the index the result
    never holds a model prediction: an asset that is kept carries the value
    of the momentum fallback series there. *)
Theorem warm_up_dates_take_fallback prices rows d :
  (d < min_train_window)%nat ->
  prediction_at prices (Some rows) d
  = if forallb negb (kept_columns rows) then None
    else build_fallback_series (length rows) prices !! d.
Proof.
  intros Hd. rewrite prediction_at_emitted, emitted_warm_up by exact Hd.
  destruct (forallb negb (kept_columns rows)); [reflexivity|].
  now destruct (build_fallback_series (length rows) prices !! d).
Qed.

Lemma history_length clean i : (length (history clean i) <= train_window)%nat.
Proof. unfold history. rewrite length_drop, length_take. lia. Qed.

Lemma imap_keep_fallback (fallback : list Prob) :
  imap (fun d fb => default fb ((∅ : gmap nat Prob) !! d)) fallback = fallback.
Proof.
  rewrite <- (list_fmap_id fallback) at 2. rewrite <- imap_const.
  apply imap_ext. intros i x _. now rewrite lookup_empty.
Qed.

Lemma untrained_walk_is_fallback prices rows :
  walk (clean_data rows) = wf_init ->
  generate_predictions_asset prices (Some rows)
  = if forallb negb (kept_columns rows) then None
    else Some (build_fallback_series (length rows) prices).
Proof.
  intros Hw. unfold generate_predictions_asset, walk_asset.
  destruct (forallb negb (kept_columns rows)); [reflexivity|].
  destruct (length (clean_data rows) <? min_train_window)%nat; [reflexivity|].
  rewrite Hw. cbn [asset_predictions wf_init default from_option length].
  f_equal. apply imap_keep_fallback.
Qed.

Lemma walk_upto_skipping clean k :
  (forall i st, walk_step clean st i = st) -> walk_upto clean k = wf_init.
Proof.
  intros Hskip. induction k as [|k IH]; [now rewrite walk_upto_start by lia|].
  destruct (decide (min_train_window <= k)%nat) as [Hm|Hm].
  - now rewrite walk_upto_S, Hskip by exact Hm.
  - now rewrite walk_upto_start by lia.
Qed.

(** X18. With a training window shorter than the minimum window no pass
    ever fits a model: every asset that is kept gets the momentum fallback
    series and nothing else. *)
Theorem short_window_never_predicts prices rows :
  (train_window < min_train_window)%nat ->
  generate_predictions_asset prices (Some rows)
  = if forallb negb (kept_columns rows) then None
    else Some (build_fallback_series (length rows) prices).
Proof.
  intros Hw. apply untrained_walk_is_fallback.
  apply walk_upto_skipping. intros i st. unfold walk_step.
  pose proof (history_length (clean_data rows) i) as Hl.
  destruct (length (history (clean_data rows) i) <? min_train_window)%nat
    eqn:E; [reflexivity|].
  apply Nat.ltb_ge in E. lia.
Qed.

Lemma remove_dups_replicate (y : Label) n :
  (length (remove_dups (replicate n y)) <= 1)%nat.
Proof.
  induction n as [|n IH]; [cbn; lia|].
  cbn [replicate remove_dups].
  destruct (decide_rel elem_of y (replicate n y)) as [_|Hn]; [exact IH|].
  destruct n as [|n]; [cbn; lia|].
  exfalso. apply Hn. cbn. left.
Qed.

Lemma nunique_single_class (h : list (@clean_row V Label)) y :
  Forall (fun c => c_label c = y) h -> (nunique h <= 1)%nat.
Proof.
  intros Hh. unfold nunique.
  assert (map c_label h = replicate (length h) y) as ->.
  { induction Hh as [|c h Hc _ IH]; [reflexivity|].
    cbn [map length replicate]. now rewrite Hc, IH. }
  apply remove_dups_replicate.
Qed.

Lemma clean_from_labels mask d rows y :
  Forall (fun r => r_target r = None \/ r_target r = Some y) rows ->
  Forall (fun c => c_label c = y) (clean_from mask d rows).
Proof.
  intros Hr. revert d. induction Hr as [|r rows Hy _ IH]; intros d.
  - constructor.
  - cbn [clean_from]. destruct (clean_of mask d r) as [c|] eqn:Ec; [|apply IH].
    constructor; [|apply IH].
    unfold clean_of in Ec.
    destruct (all_present _) as [fs|]; [|discriminate]. cbn in Ec.
    destruct (r_target r) as [y'|]; [|discriminate]. cbn in Ec.
    injection Ec as <-. cbn. destruct Hy as [Hy|Hy]; congruence.
Qed.

(** X19. When the target column of an asset takes a single value wherever
    it is present, no model is ever fitted for it: the asset, if kept, gets
    the momentum fallback series and nothing else. *)
Theorem single_class_target_never_predicts prices rows y :
  Forall (fun r => r_target r = None \/ r_target r = Some y) rows ->
  generate_predictions_asset prices (Some rows)
  = if forallb negb (kept_columns rows) then None
    else Some (build_fallback_series (length rows) prices).
Proof.
  intros Hy. apply untrained_walk_is_fallback.
  assert (forall k, walk_upto (clean_data rows) k = wf_init) as Hk;
    [|apply Hk].
  induction k as [|k IH]; [now rewrite walk_upto_start by lia|].
  destruct (decide (min_train_window <= k)%nat) as [Hm|Hm];
    [|now rewrite walk_upto_start by lia].
  rewrite walk_upto_S, IH by exact Hm. unfold walk_step.
  destruct (length _ <? min_train_window)%nat; [reflexivity|].
  change (retrain_due wf_init k) with true. cbv iota.
  assert (nunique (history (clean_data rows) k) <= 1)%nat as Hn.
  { apply (nunique_single_class _ y). unfold history.
    apply Forall_drop, Forall_take. now apply clean_from_labels. }
  destruct (nunique _ <? 2)%nat eqn:E; [reflexivity|].
  apply Nat.ltb_ge in E. lia.
Qed.

(** *** The momentum fallback series *)

(** X20. When the asset has a price column, the fallback series holds
    [high_prob] or [low_prob] on every date, never the neutral value; it
    holds [low_prob] on the first [lookback] dates and on every date up to
    which no price has been seen. *)
Theorem fallback_series_values n (col : list (option Q)) t :
  (t < length col)%nat ->
  exists q, build_fallback_series n (Some col) !! t = Some q
            /\ (q = high_prob \/ q = low_prob)
            /\ ((t < lookback)%nat -> q = low_prob)
            /\ (pad_from None col !! t = Some None -> q = low_prob).
Proof.
  intros Ht. apply lookup_lt_is_Some_2 in Ht as [c Hc].
  unfold build_fallback_series. rewrite list_lookup_imap, Hc. cbn [fmap option_fmap option_map].
  eexists. split; [reflexivity|]. split; [|split].
  - destruct (pad_from None col !! t) as [[cur|]|]; try (now right).
    destruct (lookback <=? t)%nat; try (now right).
    destruct (pad_from None col !! (t - lookback)%nat) as [[prev|]|];
      try (now right).
    destruct (momentum_positive cur prev); [now left|now right].
  - intros Hl. apply Nat.leb_gt in Hl. rewrite Hl.
    now destruct (pad_from None col !! t) as [[cur|]|].
  - intros ->. reflexivity.
Qed.

End WalkFacts.

Lemma no_lookahead_witness :
  small_walk (Some base_data) !! 2%nat = small_walk (Some later_moved) !! 2%nat.
Proof.
  apply (no_lookahead (clf := recording) (wfm := small_model)
           (cfg := config_momentum) base_data later_moved 2
           (rrow (Some 3%Z) (Some true)) (rrow (Some 3%Z) (Some false))).
  - reflexivity.
  - reflexivity.
  - reflexivity.
  - reflexivity.
  - split; intros _; eexists; reflexivity.
  - vm_compute; reflexivity.
Defined.

(** C1 as stated fails three ways.  The prediction at date 2 follows the
    features of date 2; it disappears when the label of date 2 is missing;
    and it disappears when a column that was empty up to date 2 gets its
    first value on date 3, the rows before then being dropped as incomplete. *)
Lemma prediction_depends_on_later_cells :
  take 2 base_data = take 2 feature_moved
  /\ take 2 base_data = take 2 label_missing
  /\ take 3 second_column_empty = take 3 second_column_late
  /\ small_walk (Some base_data) !! 2%nat = Some (Predicted first_training_set [3%Z])
  /\ small_walk (Some feature_moved) !! 2%nat = Some (Predicted first_training_set [30%Z])
  /\ small_walk (Some label_missing) !! 2%nat = None
  /\ small_walk (Some second_column_empty) !! 2%nat
     = Some (Predicted first_training_set [3%Z])
  /\ small_walk (Some second_column_late) !! 2%nat = None.
Proof. repeat split; vm_compute; reflexivity. Qed.

(** The same, whatever the classifier is. *)
Lemma later_cells_matter_for_any_classifier {Model Prob}
    (clf : Classifier Z bool Model Prob) :
  let emitted_by := emitted (clf := clf) (wfm := small_model) in
  emitted_by (Some base_data) !! 2%nat
  = predict_proba (fit first_training_set) [3%Z]
  /\ emitted_by (Some feature_moved) !! 2%nat
     = predict_proba (fit first_training_set) [30%Z]
  /\ emitted_by (Some label_missing) !! 2%nat = None
  /\ emitted_by (Some second_column_empty) !! 2%nat
     = predict_proba (fit first_training_set) [3%Z]
  /\ emitted_by (Some second_column_late) !! 2%nat = None.
Proof.
  destruct clf as [f p]. repeat split; vm_compute;
    try (destruct (p _ _)); reflexivity.
Qed.

Lemma degenerate_window_skips_pass_witness :
  small_walk (Some base_data) !! 3%nat = None.
Proof.
  apply (degenerate_window_skips_pass (clf := recording) (wfm := small_model)
           base_data 3
           {| c_date := 3; c_feats := [4%Z]; c_label := true |}).
  - vm_compute; reflexivity.
  - vm_compute; lia.
  - vm_compute; lia.
  - vm_compute; reflexivity.
  - vm_compute; lia.
Defined.

(** C6 as stated fails at [base_data]: at index 3 a model trained at index
    2 is held, a retrain is due, the window holds the single label [true],
    and no prediction is written for date 3. *)
Lemma stale_model_not_used :
  let before := walk_upto (clf := recording) (wfm := small_model)
                  (clean_data base_data) 3 in
  let window := history (wfm := small_model) (clean_data base_data) 3 in
  model before = Some first_training_set
  /\ retrain_due (wfm := small_model) before 3 = true
  /\ map c_label window = [true; true]
  /\ nunique window = 1%nat
  /\ small_walk (Some base_data) !! 3%nat = None.
Proof. repeat split; vm_compute; reflexivity. Qed.

(** The same, whatever the classifier is: a model is held going into index
    3 and date 3 gets no prediction. *)
Lemma degenerate_pass_for_any_classifier {Model Prob}
    (clf : Classifier Z bool Model Prob) :
  model (walk_upto (clf := clf) (wfm := small_model) (clean_data base_data) 3)
  = Some (fit first_training_set)
  /\ emitted (clf := clf) (wfm := small_model) (Some base_data) !! 3%nat
     = None.
Proof.
  destruct clf as [f p]. split; vm_compute; destruct (p _ _); reflexivity.
Qed.

Lemma prediction_provenance_witness :
  predicted_by (clf := recording) (wfm := small_model)
    (clean_data base_data) 2 (Predicted first_training_set [3%Z])
  /\ (2 <= 2)%nat.
Proof.
  apply (prediction_provenance (clf := recording) (wfm := small_model)
           base_data 2 (Predicted first_training_set [3%Z])).
  vm_compute; reflexivity.
Defined.

Lemma warm_up_dates_take_fallback_witness :
  prediction_at (clf := recording) (wfm := small_model)
    (cfg := config_momentum) None (Some base_data) 1
  = Some (Constant 0.5).
Proof.
  apply (warm_up_dates_take_fallback (clf := recording) (wfm := small_model)
           (cfg := config_momentum) None base_data 1).
  vm_compute; lia.
Defined.

Lemma short_window_never_predicts_witness :
  generate_predictions_asset (clf := recording) (wfm := short_window_model)
    (cfg := config_momentum) None (Some base_data)
  = Some (replicate 4 (Constant 0.5)).
Proof.
  apply (short_window_never_predicts (clf := recording)
           (wfm := short_window_model) (cfg := config_momentum)
           None base_data).
  vm_compute; lia.
Defined.

Lemma single_class_target_never_predicts_witness :
  generate_predictions_asset (clf := recording) (wfm := small_model)
    (cfg := config_momentum) None (Some single_class_data)
  = Some (replicate 4 (Constant 0.5)).
Proof.
  apply (single_class_target_never_predicts (clf := recording)
           (wfm := small_model) (cfg := config_momentum)
           None single_class_data true).
  repeat constructor; right; reflexivity.
Defined.

Lemma fallback_series_values_witness :
  exists q, build_fallback_series (cfg := config_momentum) 2
              (Some rising_prices) !! 1%nat = Some q
            /\ (q = Constant 0.58 \/ q = Constant 0.42)
            /\ ((1 < 63)%nat -> q = Constant 0.42)
            /\ (pad_from None rising_prices !! 1%nat = Some None
                -> q = Constant 0.42).
Proof.
  apply (fallback_series_values (cfg := config_momentum) 2 rising_prices 1).
  vm_compute; lia.
Defined.

(** *** The feature columns *)

Lemma macro_candidates_no_target :
  Forall (fun col => endswith col "_target" = false) macro_candidates.
Proof. repeat constructor. Qed.

Lemma is_column_elem columns col : is_column columns col = true -> col ∈ columns.
Proof.
  unfold is_column. intros H. apply existsb_exists in H as (c & Hc & He).
  apply String.eqb_eq in He. subst c. now apply list_elem_of_In.
Qed.

Lemma prefix_refl s : String.prefix s s = true.
Proof.
  induction s as [|a s IH]; [reflexivity|].
  cbn. destruct (Ascii.ascii_dec a a); [exact IH|contradiction].
Qed.

Lemma ibb_features :
  feature_list ibb_columns "IBB" = ["vix"%string; "IBB"%string; "IBB_ret_1d"%string].
Proof. reflexivity. Qed.

Lemma feature_list_names columns asset :
  Forall (fun col => col ∈ columns /\ endswith col "_target" = false)
         (feature_list columns asset)
  /\ (asset ∈ columns -> endswith asset "_target" = false ->
      asset ∈ feature_list columns asset).
Proof.
  split.
  - apply Forall_forall. intros col Hcol. apply list_elem_of_In in Hcol.
    unfold feature_list in Hcol. apply filter_In in Hcol as [Hin Hcolumn].
    split; [now apply is_column_elem|].
    apply in_app_or in Hin as [Hm|Ha].
    + pose proof macro_candidates_no_target as Hall.
      rewrite Forall_forall in Hall. apply Hall. now apply list_elem_of_In.
    + unfold asset_features in Ha. apply filter_In in Ha as [_ Hf].
      apply andb_prop in Hf as [_ Hf]. now apply Bool.negb_true_iff in Hf.
  - intros Hin Hend. apply list_elem_of_In. apply list_elem_of_In in Hin.
    unfold feature_list. apply filter_In. split.
    + apply in_or_app. right. unfold asset_features. apply filter_In.
      split; [exact Hin|]. unfold startswith. now rewrite prefix_refl, Hend.
    + unfold is_column. apply existsb_exists. exists asset.
      split; [exact Hin|apply String.eqb_refl].
Qed.

Lemma column_of_elem {V} (full_df : list (string * list (option V))) name col :
  column_of full_df name = Some col -> (name, col) ∈ full_df.
Proof.
  unfold column_of. intros H.
  destruct (List.find _ full_df) as [[n c]|] eqn:E; [|discriminate].
  cbn in H. injection H as ->.
  apply find_some in E as [Hin He]. cbn in He.
  apply String.eqb_eq in He. subst n. now apply list_elem_of_In.
Qed.

Lemma has_value_Exists {V} (col : list (option V)) :
  has_value col = true <-> Exists is_Some col.
Proof.
  unfold has_value. rewrite existsb_exists, Exists_exists. split.
  - intros (c & Hin & Hc). exists c. split; [now apply list_elem_of_In|].
    destruct c; [eexists; reflexivity|discriminate].
  - intros (c & Hin & [x ->]). exists (Some x).
    split; [now apply list_elem_of_In|reflexivity].
Qed.

(** X21. Every feature column returned for an asset is a column of the
    dataset that has a value on some date, and none has a name ending in
    [_target], so no target column, of this asset or another, is ever a
    feature.  The asset's own price column is returned whenever the dataset
    has it with a value on some date and the asset's name does not itself
    end in [_target]; a price column without any value is dropped. *)
Theorem features_never_include_a_target {V}
    (full_df : list (string * list (option V))) asset :
  Forall (fun c => c ∈ full_df /\ endswith (fst c) "_target" = false
                   /\ Exists is_Some (snd c))
         (_get_features_for_asset full_df asset)
  /\ (forall col, column_of full_df asset = Some col ->
        endswith asset "_target" = false -> Exists is_Some col ->
        (asset, col) ∈ _get_features_for_asset full_df asset)
  /\ (forall col, Forall (fun c => c = None) col ->
        (asset, col) ∉ _get_features_for_asset full_df asset).
Proof.
  destruct (feature_list_names (map fst full_df) asset) as [Hnames Hown].
  assert (forall c, c ∈ _get_features_for_asset full_df asset ->
            c.1 ∈ feature_list (map fst full_df) asset
            /\ column_of full_df c.1 = Some c.2
            /\ has_value c.2 = true) as Hin.
  { intros c Hc. apply list_elem_of_In in Hc.
    unfold _get_features_for_asset in Hc. apply filter_In in Hc as [Hc Hv].
    apply list_elem_of_In in Hc.
    apply list_elem_of_omap in Hc as (name & Hname & Hcol).
    destruct (column_of full_df name) as [col|] eqn:E; [|discriminate].
    cbn in Hcol. injection Hcol as <-. cbn. repeat split; assumption. }
  split; [|split].
  - apply Forall_forall. intros [name col] Hc.
    destruct (Hin _ Hc) as (Hname & Hcol & Hv). cbn in Hname, Hcol, Hv.
    rewrite Forall_forall in Hnames. destruct (Hnames _ Hname) as [_ Hend].
    split; [now apply column_of_elem|]. split; [exact Hend|].
    now apply has_value_Exists.
  - intros col Hcol Hend Hval.
    apply list_elem_of_In. unfold _get_features_for_asset. apply filter_In.
    split; [|cbn; now apply has_value_Exists].
    apply list_elem_of_In. apply list_elem_of_omap. exists asset. split.
    + apply Hown; [|exact Hend].
      apply column_of_elem in Hcol.
      change (map fst full_df) with (fst <$> full_df).
      apply list_elem_of_fmap. now exists (asset, col).
    + now rewrite Hcol.
  - intros col Hnone Hc. destruct (Hin _ Hc) as (_ & _ & Hv). cbn in Hv.
    apply has_value_Exists in Hv. apply Exists_exists in Hv as (c & Hcin & [x ->]).
    rewrite Forall_forall in Hnone. specialize (Hnone _ Hcin). discriminate.
Qed.

(** The price column is a feature once it has a value, not before; the
    target columns never are. *)
Lemma price_column_without_values_is_dropped :
  map fst (_get_features_for_asset ibb_without_prices "IBB")
  = ["vix"%string; "IBB_ret_1d"%string]
  /\ map fst (_get_features_for_asset ibb_with_a_price "IBB")
     = ["vix"%string; "IBB"%string; "IBB_ret_1d"%string].
Proof. split; reflexivity. Qed.

(** *** The labels *)

(** X26. [add_target_variable] labels every date 0 or 1, never missing:
    the last [horizon] dates are labelled 0 whatever the prices, and the
    label of an earlier date is a function of the prices up to [horizon]
    dates after it. *)
Theorem labels_look_ahead_by_horizon horizon col1 col2 t :
  (t < length col1)%nat -> (t < length col2)%nat ->
  take (S (t + horizon)) col1 = take (S (t + horizon)) col2 ->
  exists l1 l2 b,
    add_target_variable horizon (Some col1) = Some l1
    /\ add_target_variable horizon (Some col2) = Some l2
    /\ length l1 = length col1
    /\ l1 !! t = Some b /\ l2 !! t = Some b
    /\ ((length col1 <= t + horizon)%nat -> b = false).
Proof.
  intros Ht1 Ht2 Hpre. unfold add_target_variable. cbn [mbind option_bind].
  apply lookup_lt_is_Some_2 in Ht1 as [c1 Hc1].
  apply lookup_lt_is_Some_2 in Ht2 as [c2 Hc2].
  eexists _, _, _. split; [reflexivity|]. split; [reflexivity|].
  split; [apply length_imap|].
  rewrite !list_lookup_imap, Hc1, Hc2. cbn [fmap option_fmap option_map].
  rewrite <- (pad_from_lookup_prefix col1 col2 (t + horizon) (t + horizon))
    by (auto; lia).
  rewrite <- (pad_from_lookup_prefix col1 col2 (t + horizon) t)
    by (auto; lia).
  split; [reflexivity|]. split; [reflexivity|].
  intros Hlast.
  assert (pad_from None col1 !! (t + horizon)%nat = None) as ->; [|reflexivity].
  apply lookup_ge_None.
  assert (forall last (col : list (option Q)),
            length (pad_from last col) = length col) as Hlen.
  { intros last col. revert last. induction col as [|c col IH]; intros last;
      [reflexivity|]. cbn. now rewrite IH. }
  rewrite Hlen. exact Hlast.
Qed.

Lemma labels_look_ahead_by_horizon_witness :
  exists l1 l2 b,
    add_target_variable 1 (Some rising_prices) = Some l1
    /\ add_target_variable 1 (Some rising_prices) = Some l2
    /\ length l1 = length rising_prices
    /\ l1 !! 1%nat = Some b /\ l2 !! 1%nat = Some b
    /\ ((length rising_prices <= 1 + 1)%nat -> b = false).
Proof.
  apply (labels_look_ahead_by_horizon 1 rising_prices rising_prices 1).
  - vm_compute; lia.
  - vm_compute; lia.
  - reflexivity.
Defined.

(** The label of a date does move with the price [horizon] dates later. *)
Lemma label_follows_the_later_price :
  take 1 rising_prices = take 1 falling_prices
  /\ add_target_variable 1 (Some rising_prices) = Some [true; false]
  /\ add_target_variable 1 (Some falling_prices) = Some [false; false].
Proof. repeat split. Qed.

End WalkForwardFacts.

(** ** Portfolio construction *)

Module PortfolioFacts.
Import QSum QSumFacts Portfolio.
Local Open Scope Q_scope.

(** *** Sums *)

Lemma sumQ_perm (l l' : list Q) : l ≡ₚ l' -> sumQ l == sumQ l'.
Proof.
  induction 1 as [|x l l' _ IH|x y l|l l' l'' _ IH1 _ IH2].
  - reflexivity.
  - rewrite !sumQ_cons, IH. reflexivity.
  - rewrite !sumQ_cons. lra.
  - now rewrite IH1.
Qed.

Lemma sumQ_div s l : sumQ (map (fun w => w / s) l) == sumQ l / s.
Proof. unfold Qdiv. apply sumQ_scale. Qed.

Lemma sumQ_const_on {A} (f : A -> Q) (w : Q) (l : list A) :
  (forall i, i ∈ l -> f i = w) ->
  sumQ (map f l) == inject_Z (Z.of_nat (length l)) * w.
Proof.
  induction l as [|i l IH]; intros Hf.
  - cbn [map length]. rewrite sumQ_nil.
    change (inject_Z (Z.of_nat 0)) with 0. lra.
  - cbn [map length]. rewrite sumQ_cons, IH, (Hf i), Nat2Z.inj_succ.
    + unfold Z.succ. rewrite inject_Z_plus. change (inject_Z 1) with 1. lra.
    + constructor.
    + intros j Hj. apply Hf. now constructor.
Qed.

Lemma inject_nat_pos n : (0 < n)%nat -> 0 < inject_Z (Z.of_nat n).
Proof.
  intros Hn. change 0 with (inject_Z 0). rewrite <- Zlt_Qlt. lia.
Qed.

(** *** Steps 3-5: long-only weights *)

Lemma positive_weight_nonneg c : 0 <= positive_weight c.
Proof.
  unfold positive_weight. destruct (raw_weight c) as [w|]; [|lra].
  destruct (Qle_bool w 0) eqn:E; [lra|].
  assert (~ w <= 0) as Hw.
  { intros Hle. apply Qle_bool_iff in Hle. congruence. }
  lra.
Qed.

Lemma positive_weights_nonneg row :
  Forall (fun w => 0 <= w) (map positive_weight row).
Proof.
  induction row as [|c row IH]; cbn [map]; constructor;
    [apply positive_weight_nonneg|exact IH].
Qed.

Lemma div_nonneg x s : 0 <= x -> 0 < s -> 0 <= x / s.
Proof. intros Hx Hs. apply Qle_shift_div_l; lra. Qed.

Lemma Forall_div_nonneg s l :
  0 < s -> Forall (fun w => 0 <= w) l ->
  Forall (fun w => 0 <= w) (map (fun w => w / s) l).
Proof.
  intros Hs. induction 1 as [|x l Hx _ IH]; cbn [map]; constructor;
    [now apply div_nonneg|exact IH].
Qed.

Lemma normalized_nonneg row : Forall (fun w => 0 <= w) (normalized row).
Proof.
  unfold normalized. apply Forall_div_nonneg; [|apply positive_weights_nonneg].
  pose proof (sumQ_nonneg _ (positive_weights_nonneg row)) as Hs.
  destruct (Qeq_bool (sumQ (map positive_weight row)) 0) eqn:E; [lra|].
  apply Qeq_bool_neq in E. lra.
Qed.

(** *** Step 6: the ranking *)

Lemma insert_desc_perm x l : insert_desc x l ≡ₚ x :: l.
Proof.
  induction l as [|y l IH]; cbn [insert_desc]; [reflexivity|].
  destruct (Qle_bool (snd y) (snd x)); [reflexivity|].
  rewrite IH. apply perm_swap.
Qed.

Lemma foldr_insert_perm l : foldr insert_desc [] l ≡ₚ l.
Proof.
  induction l as [|x l IH]; cbn [foldr]; [reflexivity|].
  now rewrite insert_desc_perm, IH.
Qed.

Lemma fst_imap_pair (scores : list Q) :
  fst <$> imap pair scores = seq 0 (length scores).
Proof.
  rewrite fmap_imap.
  rewrite (imap_ext _ (fun j _ => j)) by reflexivity.
  rewrite (imap_seq_0 scores (fun j => j)). apply list_fmap_id.
Qed.

Lemma ranked_columns scores : fst <$> ranked scores ≡ₚ seq 0 (length scores).
Proof.
  unfold ranked. rewrite foldr_insert_perm. now rewrite fst_imap_pair.
Qed.

Lemma ranked_length scores : length (ranked scores) = length scores.
Proof.
  rewrite <- (length_fmap fst), (Permutation_length (ranked_columns scores)).
  apply length_seq.
Qed.

Lemma nlargest_length k scores :
  length (nlargest k scores) = Nat.min k (length scores).
Proof.
  unfold nlargest. change (map fst ?l) with (fst <$> l).
  now rewrite length_fmap, length_take, ranked_length.
Qed.

Lemma indicator_sum (top rest idx : list nat) (w : Q) :
  idx ≡ₚ top ++ rest -> NoDup idx ->
  sumQ (map (fun i => if bool_decide (i ∈ top) then w else 0) idx)
  == inject_Z (Z.of_nat (length top)) * w.
Proof.
  intros Hp Hnd. set (f := fun i : nat => if bool_decide (i ∈ top) then w else 0).
  rewrite Hp in Hnd. apply NoDup_app in Hnd as (_ & Hdisj & _).
  change (map f idx) with (f <$> idx).
  rewrite (sumQ_perm (f <$> idx) (f <$> (top ++ rest)))
    by (now apply fmap_Permutation).
  rewrite fmap_app, sumQ_app.
  rewrite (sumQ_const_on f w top), (sumQ_const_on f 0 rest).
  - lra.
  - intros i Hi. unfold f. rewrite bool_decide_eq_false_2; [reflexivity|].
    intros Hin. exact (Hdisj i Hin Hi).
  - intros i Hi. unfold f. now rewrite bool_decide_eq_true_2.
Qed.

Lemma nlargest_split k scores :
  seq 0 (length scores)
  ≡ₚ nlargest k scores ++ (fst <$> drop k (ranked scores)).
Proof.
  unfold nlargest. change (map fst ?l) with (fst <$> l).
  rewrite <- fmap_app, take_drop. symmetry. apply ranked_columns.
Qed.

Lemma max_positions_pos n : (0 < n)%nat -> (0 < Nat.min (max_positions n) n)%nat.
Proof. unfold max_positions. lia. Qed.

Lemma fallback_alloc_sum row : row <> [] -> sumQ (fallback_alloc row) == 1.
Proof.
  intros Hne. unfold fallback_alloc.
  assert (0 < length row)%nat as Hn
    by (destruct row; [congruence|cbn [length]; lia]).
  set (n := length row) in *. set (scores := map confidence row).
  assert (length scores = n) as Hlen by apply length_map.
  pose proof (nlargest_length (max_positions n) scores) as Htop.
  pose proof (nlargest_split (max_positions n) scores) as Hsplit.
  rewrite Hlen in Htop, Hsplit. pose proof (max_positions_pos n Hn) as Hk.
  destruct (nlargest (max_positions n) scores) as [|i top] eqn:E;
    [simpl in Htop; lia|].
  rewrite (indicator_sum (i :: top) _ (seq 0 n) _ Hsplit (NoDup_seq 0 n)).
  apply Qmult_div_r.
  assert (0 < inject_Z (Z.of_nat (length (i :: top)))) as Hp
    by (apply inject_nat_pos; cbn [length]; lia).
  lra.
Qed.

Lemma fallback_alloc_nonneg row : Forall (fun w => 0 <= w) (fallback_alloc row).
Proof.
  unfold fallback_alloc.
  destruct (nlargest _ _) as [|i top] eqn:E.
  - apply Forall_forall. intros x Hx.
    apply elem_of_replicate in Hx as [-> _]. lra.
  - apply Forall_forall. intros x Hx.
    apply list_elem_of_fmap in Hx as (j & -> & _).
    destruct (bool_decide _); [|lra].
    apply div_nonneg; [lra|]. apply inject_nat_pos. simpl. lia.
Qed.

(** *** Step 7: the closing renormalization and the cash column *)

Lemma target_weights_nonneg row : Forall (fun w => 0 <= w) (target_weights row).
Proof.
  unfold target_weights.
  destruct (fallback_day row); [apply fallback_alloc_nonneg|apply normalized_nonneg].
Qed.

(** With at least one asset column the row sum is never 0: the closing
    division is always defined. *)
Lemma target_weights_sum_nonzero row :
  row <> [] -> ~ sumQ (target_weights row) == 0.
Proof.
  intros Hne. unfold target_weights.
  destruct (fallback_day row) eqn:E.
  - rewrite (fallback_alloc_sum row Hne). lra.
  - unfold fallback_day in E. now apply Qeq_bool_neq in E.
Qed.

Lemma renormalize_defined w :
  ~ sumQ w == 0 ->
  renormalize w = map (fun x => Some (x / sumQ w)) w
  /\ sum_skipna (renormalize w) == 1.
Proof.
  intros Hs. unfold renormalize.
  assert (Qeq_bool (sumQ w) 0 = false) as ->.
  { destruct (Qeq_bool (sumQ w) 0) eqn:E; [|reflexivity].
    apply Qeq_bool_iff in E. contradiction. }
  split; [reflexivity|].
  unfold sum_skipna. rewrite map_map.
  change (sumQ (map (fun x => x / sumQ w) w) == 1).
  rewrite sumQ_div. field. exact Hs.
Qed.

Lemma renormalize_undefined w :
  sumQ w == 0 -> sum_skipna (renormalize w) == 0.
Proof.
  intros Hs. unfold renormalize.
  apply Qeq_bool_iff in Hs. rewrite Hs.
  unfold sum_skipna. rewrite map_map.
  apply sumQ_all_zero. apply Forall_forall. intros x Hx.
  apply list_elem_of_fmap in Hx as (y & -> & _). reflexivity.
Qed.

(** *** When a date falls back *)

Lemma fallback_day_iff row :
  fallback_day row = true <-> sumQ (map positive_weight row) == 0.
Proof.
  unfold fallback_day, normalized.
  destruct (Qeq_bool (sumQ (map positive_weight row)) 0) eqn:E.
  - apply Qeq_bool_iff in E. split; [intros _; exact E|intros _].
    apply Qeq_bool_iff. rewrite sumQ_div, E. reflexivity.
  - apply Qeq_bool_neq in E. split; [|intros Hz; contradiction].
    intros Hfb. apply Qeq_bool_iff in Hfb. rewrite sumQ_div in Hfb.
    exfalso. apply E.
    assert (sumQ (map positive_weight row) / sumQ (map positive_weight row)
            == 1) as H1 by (field; exact E).
    rewrite H1 in Hfb. discriminate.
Qed.

(** A neutral prediction with a positive momentum overlay over a positive
    volatility keeps its date out of the fallback, whatever the overlay is
    worth and whatever the other assets show. *)
Lemma positive_momentum_is_no_fallback (m v : Q) (others : list cell) :
  0 < m -> 0 < v -> fallback_day (neutral m (Some v) :: others) = false.
Proof.
  intros Hm Hv.
  destruct (fallback_day (neutral m (Some v) :: others)) eqn:E; [|reflexivity].
  exfalso. apply fallback_day_iff in E. cbn [map] in E. rewrite sumQ_cons in E.
  pose proof (sumQ_nonneg _ (positive_weights_nonneg others)) as Hrest.
  assert (0 < positive_weight (neutral m (Some v))) as Hpos.
  { unfold positive_weight, raw_weight, neutral. cbn [vol].
    assert (Qeq_bool v 0 = false) as ->.
    { destruct (Qeq_bool v 0) eqn:Ev; [|reflexivity].
      apply Qeq_bool_iff in Ev. lra. }
    set (w := confidence _ / v).
    assert (0 < w) as Hw.
    { subst w. apply Qlt_shift_div_l; [exact Hv|].
      unfold confidence. cbn [prediction overlay].
      change (0 * v < (1 # 2) - (1 # 2) + m). lra. }
    destruct (Qle_bool w 0) eqn:Ew; [|exact Hw].
    apply Qle_bool_iff in Ew. lra. }
  lra.
Qed.

(** *** A date without any signal *)

Lemma no_signal_confidence c : no_signal c -> confidence c == 0.
Proof.
  intros [(p & Hp & Hhalf) Hov]. unfold confidence. rewrite Hp.
  change (p - (1 # 2) + overlay c == 0). lra.
Qed.

Lemma no_signal_positive_weight c : no_signal c -> positive_weight c = 0.
Proof.
  intros Hc. apply no_signal_confidence in Hc.
  unfold positive_weight, raw_weight.
  destruct (vol c) as [v|]; [|reflexivity].
  destruct (Qeq_bool v 0) eqn:Ev; [reflexivity|].
  assert (confidence c / v <= 0) as Hle.
  { rewrite Hc. unfold Qdiv. lra. }
  apply Qle_bool_iff in Hle. now rewrite Hle.
Qed.

Lemma no_signal_fallback_day row : Forall no_signal row -> fallback_day row = true.
Proof.
  intros Hrow. unfold fallback_day, normalized.
  assert (map positive_weight row = replicate (length row) 0) as ->.
  { induction Hrow as [|c row Hc _ IH]; [reflexivity|].
    cbn [map length replicate]. now rewrite IH, (no_signal_positive_weight c Hc). }
  apply Qeq_bool_iff. rewrite sumQ_div.
  generalize (if Qeq_bool (sumQ (replicate (length row) 0)) 0
              then 1 else sumQ (replicate (length row) 0)) as s.
  intros s. rewrite sumQ_replicate. unfold Qdiv. ring.
Qed.

(** Equal scores keep the order of the columns. *)
Lemma tied_scores_keep_order (g : nat -> Q -> nat * Q) (c : Q) (scores : list Q) :
  (forall i x, snd (g i x) = x) ->
  Forall (fun x => x == c) scores ->
  foldr insert_desc [] (imap g scores) = imap g scores.
Proof.
  intros Hg Hs. revert g Hg.
  induction Hs as [|x scores Hx Hs IH]; intros g Hg; [reflexivity|].
  rewrite imap_cons. cbn [foldr].
  rewrite (IH (g ∘ S)) by (intros i y; apply Hg).
  destruct Hs as [|y scores Hy Hs]; [reflexivity|].
  rewrite imap_cons. cbn [insert_desc].
  assert (Qle_bool (snd ((g ∘ S) 0%nat y)) (snd (g 0%nat x)) = true) as ->;
    [|reflexivity].
  apply Qle_bool_iff. unfold compose. rewrite !Hg. lra.
Qed.

Lemma nlargest_tied k c scores :
  Forall (fun x => x == c) scores ->
  nlargest k scores = seq 0 (Nat.min k (length scores)).
Proof.
  intros Hs. unfold nlargest, ranked.
  rewrite (tied_scores_keep_order pair c scores) by (auto; reflexivity).
  change (map fst ?l) with (fst <$> l).
  now rewrite fmap_take, fst_imap_pair, take_seq.
Qed.

Lemma no_signal_fallback_alloc row :
  row <> [] -> Forall no_signal row ->
  fallback_alloc row
  = equal_weight_first (Nat.min 3 (length row)) (length row).
Proof.
  intros Hne Hrow. unfold fallback_alloc, equal_weight_first.
  assert (0 < length row)%nat as Hn
    by (destruct row; [congruence|cbn [length]; lia]).
  rewrite (nlargest_tied _ 0), length_map.
  2:{ apply Forall_fmap. eapply Forall_impl; [exact Hrow|].
      intros c Hc. now apply no_signal_confidence. }
  replace (Nat.min (max_positions (length row)) (length row))
    with (Nat.min 3 (length row)) by (unfold max_positions; lia).
  set (m := Nat.min 3 (length row)).
  assert (0 < m)%nat as Hm by (subst m; lia).
  destruct (seq 0 m) as [|j top] eqn:Es.
  { apply (f_equal length) in Es. rewrite length_seq in Es.
    cbn [length] in Es. lia. }
  cbv zeta. rewrite <- Es, length_seq. apply map_ext. intros i. subst m.
  destruct (i <? Nat.min 3 (length row))%nat eqn:Ei.
  - apply Nat.ltb_lt in Ei. rewrite bool_decide_eq_true_2; [reflexivity|].
    apply elem_of_seq. lia.
  - apply Nat.ltb_ge in Ei. rewrite bool_decide_eq_false_2; [reflexivity|].
    rewrite elem_of_seq. lia.
Qed.

(** *** Main results on the weight matrix *)

(** C2. Every row of the weight matrix sums to 1 over the asset columns
    and the cash column, and every asset entry is a number that is not
    negative. *)
Theorem weight_rows_sum_to_one rows :
  Forall (fun r => row_total r == 1
                   /\ Forall (fun c => exists w, c = Some w /\ 0 <= w)
                             (assets r))
         (generate_target_portfolio rows).
Proof.
  unfold generate_target_portfolio. apply Forall_forall. intros r Hr.
  apply list_elem_of_fmap in Hr as (row & -> & _).
  split.
  - unfold row_total, target_row. cbn [assets cash]. lra.
  - unfold target_row. cbn [assets].
    destruct row as [|c row]; [constructor|].
    assert (c :: row <> []) as Hne by discriminate.
    destruct (renormalize_defined _ (target_weights_sum_nonzero _ Hne))
      as [-> _].
    pose proof (target_weights_nonneg (c :: row)) as Hpos.
    pose proof (sumQ_nonneg _ Hpos) as Hs.
    pose proof (target_weights_sum_nonzero _ Hne) as Hnz.
    apply Forall_forall. intros x Hx.
    apply list_elem_of_fmap in Hx as (y & -> & Hy).
    eexists; split; [reflexivity|].
    rewrite Forall_forall in Hpos. apply div_nonneg; [now apply Hpos|lra].
Qed.

(** C10. On a date whose asset weights do not sum to 0 before the closing
    renormalization, the asset columns sum to 1 afterwards and the cash
    column is 0. *)
Theorem renormalized_row_has_no_cash row :
  ~ sumQ (target_weights row) == 0 ->
  sum_skipna (assets (target_row row)) == 1 /\ cash (target_row row) == 0.
Proof.
  intros Hs. unfold target_row. cbn [assets cash].
  destruct (renormalize_defined _ Hs) as [_ H1]. rewrite H1. split; lra.
Qed.

(** C8, as the code has it.  On a date where every prediction is 0.5 and
    every momentum overlay term is 0, the confidence scores are 0, the date
    is a fallback date, and the first [min 3 n] columns get the weight
    [1 / min 3 n] each (all scores being tied, the earlier columns win),
    the other columns 0, with no cash. *)
Theorem neutral_row_falls_back row :
  row <> [] -> Forall no_signal row ->
  Forall (fun c => confidence c == 0) row
  /\ fallback_day row = true
  /\ Forall2 weight_is (assets (target_row row))
       (equal_weight_first (Nat.min 3 (length row)) (length row))
  /\ cash (target_row row) == 0.
Proof.
  intros Hne Hrow.
  pose proof (no_signal_fallback_day row Hrow) as Hfb.
  pose proof (target_weights_sum_nonzero row Hne) as Hnz.
  assert (sumQ (target_weights row) == 1) as Hone.
  { unfold target_weights. rewrite Hfb. now apply fallback_alloc_sum. }
  destruct (renormalize_defined _ Hnz) as [Hre Hsum].
  split; [|split; [exact Hfb|split]].
  - eapply Forall_impl; [exact Hrow|]. intros c Hc.
    now apply no_signal_confidence.
  - unfold target_row. cbn [assets]. rewrite Hre.
    assert (target_weights row
            = equal_weight_first (Nat.min 3 (length row)) (length row)) as Htw.
    { unfold target_weights. rewrite Hfb. now apply no_signal_fallback_alloc. }
    rewrite <- Htw. revert Hone.
    generalize (sumQ (target_weights row)) as s.
    generalize (target_weights row) as w. intros w s Hs.
    induction w as [|x w IH]; cbn [map]; constructor; [|exact IH].
    exists (x / s). split; [reflexivity|]. rewrite Hs. field.
  - unfold target_row. cbn [cash]. rewrite Hsum. lra.
Qed.

Lemma neutral_row_falls_back_witness :
  Forall2 weight_is (assets (target_row neutral_four)) (equal_weight_first 3 4).
Proof.
  apply (neutral_row_falls_back neutral_four).
  - discriminate.
  - repeat constructor; eexists; split; reflexivity.
Defined.

(** C8 as stated fails at [neutral_with_momentum]: both predictions are
    0.5, yet the first score is 0.03, the date is not a fallback date, and
    the first asset takes the whole weight where the fallback allocation
    would give each asset one half. *)
Lemma momentum_overrides_neutral_predictions :
  map prediction neutral_with_momentum = [Some (1 # 2); Some (1 # 2)]
  /\ map (fun c => Qred (confidence c)) neutral_with_momentum = [3 # 100; 0]
  /\ fallback_day neutral_with_momentum = false
  /\ map (option_map Qred) (assets (target_row neutral_with_momentum))
     = [Some 1; Some 0]
  /\ map Qred (fallback_alloc neutral_with_momentum) = [1 # 2; 1 # 2].
Proof. repeat split; vm_compute; reflexivity. Qed.

Lemma renormalized_row_has_no_cash_witness :
  sum_skipna (assets (target_row neutral_with_momentum)) == 1
  /\ cash (target_row neutral_with_momentum) == 0.
Proof.
  apply (renormalized_row_has_no_cash neutral_with_momentum).
  vm_compute. discriminate.
Defined.

(** *** What the weights are before the closing renormalization *)






(** *** Which assets are held on a date with signals *)

Lemma positive_weight_pos_iff c :
  (forall v, vol c = Some v -> 0 <= v) ->
  0 < positive_weight c
  <-> 0 < confidence c /\ exists v, vol c = Some v /\ 0 < v.
Proof.
  intros Hv. unfold positive_weight, raw_weight.
  destruct (vol c) as [v|] eqn:Ev.
  - specialize (Hv v eq_refl).
    destruct (Qeq_bool v 0) eqn:E0.
    + apply Qeq_bool_iff in E0. split; [intros H; lra|].
      intros (_ & v' & [= <-] & Hpos). lra.
    + apply Qeq_bool_neq in E0. assert (0 < v) as Hvp by lra.
      destruct (Qle_bool (confidence c / v) 0) eqn:El.
      * apply Qle_bool_iff in El. split; [intros H; lra|].
        intros (Hc & _). exfalso.
        assert (0 < confidence c / v).
        { apply Qlt_shift_div_l; lra. }
        lra.
      * assert (0 < confidence c / v) as Hq.
        { apply Qnot_le_lt. intros Hle. apply Qle_bool_iff in Hle. congruence. }
        split; [intros _|intros _; exact Hq].
        split; [|exists v; split; [reflexivity|exact Hvp]].
        assert (confidence c == confidence c / v * v) as -> by (field; lra).
        apply Qmult_lt_0_compat; assumption.
  - split; [intros H; lra|]. intros (_ & v & [=] & _).
Qed.

(** X23. On a date with signals (no fallback) an asset is held exactly
    when its confidence score is positive and its volatility is a positive
    number; every other asset has weight 0. *)
Theorem held_iff_positive_score row i c :
  fallback_day row = false -> row !! i = Some c ->
  (forall v, vol c = Some v -> 0 <= v) ->
  exists w, target_weights row !! i = Some w
            /\ 0 <= w
            /\ (0 < w <-> 0 < confidence c /\ exists v, vol c = Some v /\ 0 < v)
            /\ (~ 0 < w -> w == 0).
Proof.
  intros Hfb Hi Hv. unfold target_weights. rewrite Hfb.
  assert (~ sumQ (map positive_weight row) == 0) as Hs.
  { intros Hz. apply fallback_day_iff in Hz. congruence. }
  assert (0 < sumQ (map positive_weight row)) as Hpos.
  { pose proof (sumQ_nonneg _ (positive_weights_nonneg row)). lra. }
  unfold normalized.
  destruct (Qeq_bool (sumQ (map positive_weight row)) 0) eqn:E;
    [apply Qeq_bool_iff in E; contradiction|].
  change (map ?f ?l) with (f <$> l). rewrite !list_lookup_fmap, Hi.
  cbn [fmap option_fmap option_map].
  eexists. split; [reflexivity|].
  pose proof (positive_weight_nonneg c) as Hn.
  pose proof (positive_weight_pos_iff c Hv) as Hiff.
  set (pw := positive_weight c) in *. clearbody pw.
  set (total := sumQ _) in *. clearbody total.
  assert (0 < pw / total <-> 0 < pw) as Hdiv.
  { split; intros H.
    - assert (pw == pw / total * total) as -> by (field; lra).
      apply Qmult_lt_0_compat; assumption.
    - apply Qlt_shift_div_l; lra. }
  split; [apply div_nonneg; assumption|]. split.
  - rewrite Hdiv. exact Hiff.
  - intros Hnot. assert (pw == 0) as ->.
    { destruct (Qlt_le_dec 0 pw) as [Hlt|Hle]; [|lra].
      exfalso. apply Hnot. now apply Hdiv. }
    field. lra.
Qed.

Lemma held_iff_positive_score_witness :
  exists w, target_weights neutral_with_momentum !! 1%nat = Some w
            /\ 0 <= w
            /\ (0 < w <-> 0 < confidence (neutral 0 (Some (1 # 50)))
                          /\ exists v, vol (neutral 0 (Some (1 # 50))) = Some v
                                       /\ 0 < v)
            /\ (~ 0 < w -> w == 0).
Proof.
  apply (held_iff_positive_score neutral_with_momentum 1
           (neutral 0 (Some (1 # 50)))).
  - vm_compute; reflexivity.
  - reflexivity.
  - intros v [= <-]. vm_compute; discriminate.
Defined.

(** *** Which assets a fallback date holds *)

Lemma insert_desc_sorted x l :
  StronglySorted score_ge l -> StronglySorted score_ge (insert_desc x l).
Proof.
  induction 1 as [|y l Hl IH Hy]; cbn [insert_desc].
  - constructor; constructor.
  - destruct (Qle_bool (snd y) (snd x)) eqn:E.
    + apply Qle_bool_iff in E.
      constructor; [constructor; assumption|].
      constructor; [exact E|].
      eapply Forall_impl; [exact Hy|]. unfold score_ge. cbn. intros z Hz. lra.
    + assert (snd x <= snd y) as Hxy.
      { apply Qlt_le_weak, Qnot_le_lt. intros Hle.
        apply Qle_bool_iff in Hle. congruence. }
      constructor; [exact IH|].
      rewrite (insert_desc_perm x l). constructor; assumption.
Qed.

Lemma ranked_sorted scores : StronglySorted score_ge (ranked scores).
Proof.
  unfold ranked. induction (imap pair scores) as [|x l IH]; cbn [foldr].
  - constructor.
  - now apply insert_desc_sorted.
Qed.

Lemma sorted_take_drop (l : list (nat * Q)) k a b :
  StronglySorted score_ge l -> a ∈ take k l -> b ∈ drop k l -> score_ge a b.
Proof.
  intros Hl. revert k. induction Hl as [|y l Hl IH Hy]; intros k Ha Hb.
  - rewrite take_nil in Ha. inversion Ha.
  - destruct k as [|k]; [cbn in Ha; inversion Ha|].
    cbn [take drop] in Ha, Hb. apply elem_of_cons in Ha as [->|Ha].
    + rewrite Forall_forall in Hy. apply Hy.
      apply list_elem_of_lookup in Hb as [i Hi]. rewrite lookup_drop in Hi.
      eapply list_elem_of_lookup_2. exact Hi.
    + now apply (IH k).
Qed.

Lemma ranked_elem scores a :
  a ∈ ranked scores -> scores !! a.1 = Some a.2.
Proof.
  unfold ranked. rewrite (foldr_insert_perm (imap pair scores)).
  intros H. apply elem_of_lookup_imap in H as (i & x & -> & Hx). exact Hx.
Qed.

(** X24. A fallback date over [n >= 1] assets holds exactly [min 3 n] of
    them, each at weight [1 / min 3 n], and they are the best ranked: no
    asset left out has a higher confidence score than an asset held. *)
Theorem fallback_holds_top_scores row :
  row <> [] -> fallback_day row = true ->
  length (top_assets row) = Nat.min 3 (length row)
  /\ (forall i, (i < length row)%nat ->
        target_weights row !! i
        = Some (if bool_decide (i ∈ top_assets row)
                then 1 / inject_Z (Z.of_nat (Nat.min 3 (length row)))
                else 0))
  /\ (forall i j ci cj,
        i ∈ top_assets row -> j ∉ top_assets row ->
        row !! i = Some ci -> row !! j = Some cj ->
        confidence cj <= confidence ci).
Proof.
  intros Hne Hfb.
  assert (0 < length row)%nat as Hn
    by (destruct row; [congruence|cbn [length]; lia]).
  assert (length (top_assets row) = Nat.min 3 (length row)) as Hlen.
  { unfold top_assets. rewrite nlargest_length, length_map.
    unfold max_positions. lia. }
  split; [exact Hlen|]. split.
  - intros i Hi. unfold target_weights. rewrite Hfb. unfold fallback_alloc.
    fold (top_assets row). rewrite <- Hlen.
    assert (top_assets row <> []) as Htop.
    { intros E. rewrite E in Hlen. cbn [length] in Hlen. lia. }
    destruct (top_assets row) as [|i0 top] eqn:E; [congruence|].
    change (map ?f ?l) with (f <$> l).
    rewrite list_lookup_fmap, lookup_seq_lt by exact Hi. reflexivity.
  - intros i j ci cj Hi Hj Hci Hcj.
    set (k := max_positions (length row)).
    set (scores := map confidence row).
    assert (exists a, a ∈ take k (ranked scores) /\ a.1 = i) as (a & Ha & Hai).
    { unfold top_assets, nlargest in Hi. fold k scores in Hi.
      apply list_elem_of_fmap in Hi as (a & -> & Ha). now exists a. }
    assert (exists b, b ∈ drop k (ranked scores) /\ b.1 = j) as (b & Hb & Hbj).
    { pose proof (nlargest_split k scores) as Hsplit.
      assert (j ∈ seq 0 (length scores)) as Hjs.
      { apply elem_of_seq. unfold scores. rewrite length_map.
        apply lookup_lt_Some in Hcj. lia. }
      rewrite Hsplit in Hjs. apply elem_of_app in Hjs as [Hjs|Hjs].
      - exfalso. apply Hj. exact Hjs.
      - apply list_elem_of_fmap in Hjs as (b & -> & Hb). now exists b. }
    pose proof (sorted_take_drop _ k a b (ranked_sorted scores) Ha Hb) as Hge.
    assert (a ∈ ranked scores) as Ha'.
    { apply list_elem_of_lookup in Ha as [t Ht].
      apply lookup_take_Some in Ht as [Ht _].
      eapply list_elem_of_lookup_2; exact Ht. }
    assert (b ∈ ranked scores) as Hb'.
    { apply list_elem_of_lookup in Hb as [t Ht]. rewrite lookup_drop in Ht.
      eapply list_elem_of_lookup_2; exact Ht. }
    apply ranked_elem in Ha', Hb'. rewrite Hai in Ha'. rewrite Hbj in Hb'.
    unfold scores in Ha', Hb'.
    change (map ?f ?l) with (f <$> l) in Ha', Hb'.
    rewrite list_lookup_fmap, Hci in Ha'. rewrite list_lookup_fmap, Hcj in Hb'.
    cbn in Ha', Hb'. injection Ha' as Ha'. injection Hb' as Hb'.
    unfold score_ge in Hge. rewrite <- Ha', <- Hb' in Hge. exact Hge.
Qed.

Lemma fallback_holds_top_scores_witness :
  length (top_assets neutral_four) = Nat.min 3 (length neutral_four).
Proof.
  exact (proj1 (fallback_holds_top_scores neutral_four
                  ltac:(discriminate) ltac:(vm_compute; reflexivity))).
Defined.

End PortfolioFacts.

(** ** The portfolio handed to the backtester *)

Module PipelineFacts.
Import QSum QSumFacts Pipeline.
Local Open Scope Q_scope.



(** *** Placing the asset columns among the price columns *)















(** The run by hand: the first date has no signals and takes 1/3 on each
    of the three price columns, the benchmark included; the two later dates
    put everything on the first asset and nothing on the benchmark. *)
Lemma two_asset_run_by_hand :
  map (map Qred) (default [] (Backtest.weights two_asset_run))
  = [[1 # 3; 1 # 3; 1 # 3]; [0; 1; 0]; [0; 1; 0]]
  /\ map (fun d => Qred (Backtest.turnover d))
         (default [] (Backtest.run_backtest two_asset_run))
     = [1 # 2; 2 # 3; 0].
Proof. split; vm_compute; reflexivity. Qed.

End PipelineFacts.
